(** * MAP_WIDGET: metric model, aggregation engine, country-name lookup and
      drill-down view state of the survey map component.

    The TypeScript sources are embedded shallowly:
    - a JavaScript [number] is an IEEE-754 binary64 value, that is Rocq's
      primitive [float] (same format, same round-to-nearest-even operations,
      a single NaN);
    - a value of type [number | undefined] is [JS.value];
    - a [string | null] signal is an [option string];
    - a JavaScript [Map] keeps insertion order and is an association list;
    - the Angular signals of the component are the fields of one record that
      the event handlers rewrite. *)

From Stdlib Require Import ZArith QArith Qround Lqa List String Ascii Bool Lia.
From Stdlib Require Import Floats Uint63 DecimalString.
From Stdlib Require Import Sorted Permutation.
Import ListNotations.

Set Warnings "-inexact-float".
Local Open Scope string_scope.

(* ================================================================= *)
(** ** The JavaScript runtime operations the sources call *)

Module JS.

(** A value of TypeScript type [number | undefined]. *)
Inductive value : Type :=
| Undefined
| Num (n : float).

(** [typeof v === 'number'] *)
Definition isNumber (v : value) : bool :=
  match v with Num _ => true | Undefined => false end.

(** [Number(v)]: the identity on numbers, NaN on [undefined]. *)
Definition Number (v : value) : float :=
  match v with Num n => n | Undefined => nan end.

(** [Number.isNaN(n)] on a number. *)
Definition isNaN (n : float) : bool := PrimFloat.is_nan n.

(** [Number.isNaN(v)]: false on anything that is not a number. *)
Definition isNaN_value (v : value) : bool :=
  match v with Num n => isNaN n | Undefined => false end.

(** Truthiness of a string: only the empty string is falsy. *)
Definition truthy (s : string) : bool := negb (s =? "").

(** Truthiness of a [string | null | undefined]. *)
Definition truthy_opt (o : option string) : bool :=
  match o with Some s => truthy s | None => false end.

(** The string of a [string | null] that is truthy. *)
Definition nonEmpty (o : option string) : option string :=
  match o with
  | Some s => if truthy s then Some s else None
  | None => None
  end.

(** [a || b] on strings. *)
Definition or_else (a b : string) : string := if truthy a then a else b.

(** *** The order of strings

    A JavaScript string is a sequence of UTF-16 code units and [<], [>] and
    [sort()] compare strings unit by unit.  A [string] here holds the UTF-8
    bytes of the JavaScript string (a lone surrogate as its three bytes), so
    the code units are decoded from the bytes: a character above U+FFFF is
    two surrogate units, which come before the units U+E000..U+FFFF although
    the bytes come after.  A byte that starts no well-formed sequence is read
    as U+FFFD. *)

Definition isContinuation (b : N) : bool := ((128 <=? b) && (b <? 192))%N.

Definition lowBits (b : N) : N := (b mod 64)%N.

Definition loneByte (b : N) : N := if (b <? 128)%N then b else 65533%N.

(** The code units of a code point. *)
Definition unitsOf (cp : N) : list N :=
  if (cp <? 65536)%N then [cp]
  else [(55296 + (cp - 65536) / 1024)%N; (56320 + (cp - 65536) mod 1024)%N].

Fixpoint codeUnits (s : string) : list N :=
  match s with
  | EmptyString => []
  | String a0 s1 =>
      let b0 := N_of_ascii a0 in
      match s1 with
      | String a1 s2 =>
          let b1 := N_of_ascii a1 in
          if ((192 <=? b0) && (b0 <? 224))%N && isContinuation b1 then
            ((b0 - 192) * 64 + lowBits b1)%N :: codeUnits s2
          else
            match s2 with
            | String a2 s3 =>
                let b2 := N_of_ascii a2 in
                if ((224 <=? b0) && (b0 <? 240))%N
                   && isContinuation b1 && isContinuation b2 then
                  ((b0 - 224) * 4096 + lowBits b1 * 64 + lowBits b2)%N
                  :: codeUnits s3
                else
                  match s3 with
                  | String a3 s4 =>
                      let b3 := N_of_ascii a3 in
                      if ((240 <=? b0) && (b0 <? 248))%N
                         && isContinuation b1 && isContinuation b2
                         && isContinuation b3 then
                        (unitsOf ((b0 - 240) * 262144 + lowBits b1 * 4096
                                  + lowBits b2 * 64 + lowBits b3)%N
                         ++ codeUnits s4)%list
                      else loneByte b0 :: codeUnits s1
                  | EmptyString => loneByte b0 :: codeUnits s1
                  end
            | EmptyString => loneByte b0 :: codeUnits s1
            end
      | EmptyString => [loneByte b0]
      end
  end.

(** Lexicographic comparison of code units. *)
Fixpoint compareUnits (a b : list N) : comparison :=
  match a, b with
  | [], [] => Eq
  | [], _ :: _ => Lt
  | _ :: _, [] => Gt
  | x :: a', y :: b' =>
      match (x ?= y)%N with
      | Eq => compareUnits a' b'
      | Lt => Lt
      | Gt => Gt
      end
  end.

(** [a < b], [a > b] and [a <= b] on strings. *)
Definition ltb (a b : string) : bool :=
  match compareUnits (codeUnits a) (codeUnits b) with
  | Lt => true
  | _ => false
  end.

Definition gtb (a b : string) : bool := ltb b a.

Definition leb (a b : string) : bool := negb (ltb b a).

(** The relational operators on numbers (all false on NaN). *)
Definition ge (a b : float) : bool := PrimFloat.leb b a.
Definition le (a b : float) : bool := PrimFloat.leb a b.
Definition lt (a b : float) : bool := PrimFloat.ltb a b.

(** *** Numbers as text

    [Number.prototype.toFixed], [Math.round] and [String(number)] are
    defined by ECMAScript on the exact real value of a binary64 number;
    [Prim2SF] exposes sign, mantissa and exponent, and the arithmetic below
    is exact arithmetic over [Q]. *)

(** Decimal digits of a non-negative integer. *)
Definition digits (n : Z) : string :=
  NilZero.string_of_uint (N.to_uint (Z.to_N n)).

Definition zeros (n : Z) : string :=
  String.concat "" (repeat "0" (Z.to_nat n)).

Definition signed (neg : bool) (s : string) : string :=
  if neg then "-" ++ s else s.

(** The real number [m * 2^e]. *)
Definition real (m : positive) (e : Z) : Q :=
  Qred (inject_Z (Zpos m) * 2 ^ e).

Definition pow10 (p : Z) : Q := (10 ^ p)%Q.

Definition is_integer (q : Q) : bool := Qeq_bool (inject_Z (Qfloor q)) q.

(** The reals that round (to nearest, ties to even) to the binary64 number
    [m * 2^e]: half a gap below and above it, the ends included exactly
    when the mantissa is even.  The gap below a power of two is half the
    gap above it. *)
Record interval : Type := mkInterval { lo : Q; hi : Q; closed : bool }.

Definition rounding_interval (m : positive) (e : Z) : interval :=
  let x := real m e in
  let below :=
    if (Pos.eqb m 4503599627370496 && (-1074 <? e)%Z)%bool
    then 2 ^ (e - 1) else 2 ^ e in
  {| lo := Qred (x - below / 2);
     hi := Qred (x + 2 ^ e / 2);
     closed := Z.even (Zpos m) |}.

(** The integers [s] with [s * 10^p] in the interval, as a range. *)
Definition candidates (i : interval) (p : Z) : Z * Z :=
  let l := Qred (lo i / pow10 p) in
  let h := Qred (hi i / pow10 p) in
  (if closed i || negb (is_integer l) then Qceiling l else (Qceiling l + 1)%Z,
   if closed i || negb (is_integer h) then Qfloor h else (Qfloor h - 1)%Z).

(** Of the integers of a non-empty range, the one with [s * 10^p] closest
    to [x]; the even one of two equally close. *)
Definition closest (x : Q) (p : Z) (sl sh : Z) : Z :=
  let c := Qfloor (x / pow10 p) in
  if (c <? sl)%Z then sl
  else if (sh <? c + 1)%Z then c
  else
    let dl := x - inject_Z c * pow10 p in
    let dh := inject_Z (c + 1) * pow10 p - x in
    match Qcompare dl dh with
    | Lt => c
    | Gt => (c + 1)%Z
    | Eq => if Z.even c then c else (c + 1)%Z
    end.

(** The shortest decimal [s * 10^p] that reads back as the number: the
    largest [p] for which the interval holds a multiple of [10^p]. *)
Fixpoint shortest (fuel : nat) (x : Q) (i : interval) (p : Z) : Z * Z :=
  let (sl, sh) := candidates i p in
  if (sl <=? sh)%Z then (closest x p sl sh, p)
  else match fuel with
       | O => (0%Z, p)
       | S fuel' => shortest fuel' x i (p - 1)
       end.

(** [Number::toString] on a positive finite number. *)
Definition toString_finite (m : positive) (e : Z) : string :=
  let x := real m e in
  let i := rounding_interval m e in
  let p0 := Z.of_nat (String.length (digits (Qceiling (hi i)))) in
  let (s, p) := shortest (Z.to_nat (p0 + 400)) x i p0 in
  let d := digits s in
  let k := Z.of_nat (String.length d) in
  let n := (k + p)%Z in
  if ((k <=? n) && (n <=? 21))%Z%bool then d ++ zeros (n - k)
  else if ((0 <? n) && (n <=? 21))%Z%bool then
    substring 0 (Z.to_nat n) d ++ "." ++
    substring (Z.to_nat n) (Z.to_nat (k - n)) d
  else if ((-6 <? n) && (n <=? 0))%Z%bool then "0." ++ zeros (- n) ++ d
  else
    let ex :=
      (if (0 <=? n - 1)%Z then "+" else "-") ++ digits (Z.abs (n - 1)) in
    if (k =? 1)%Z then d ++ "e" ++ ex
    else substring 0 1 d ++ "." ++ substring 1 (Z.to_nat (k - 1)) d
         ++ "e" ++ ex.

(** [String(x)] on a number. *)
Definition toString (x : float) : string :=
  match Prim2SF x with
  | S754_nan => "NaN"
  | S754_zero _ => "0"
  | S754_infinity neg => signed neg "Infinity"
  | S754_finite neg m e => signed neg (toString_finite m e)
  end.

(** The nearest integer to a real, the larger of two equally near. *)
Definition nearest (r : Q) : Z := Qfloor (r + (1 # 2)).

(** One-decimal text of [n] tenths. *)
Definition tenths (n : Z) : string :=
  digits (n / 10) ++ "." ++ digits (n mod 10).

(** [x.toFixed(1)] *)
Definition toFixed1 (x : float) : string :=
  match Prim2SF x with
  | S754_nan => "NaN"
  | S754_infinity neg => signed neg "Infinity"
  | S754_zero _ => "0.0"
  | S754_finite neg m e =>
      let r := real m e in
      if Qle_bool (10 ^ 21) r then signed neg (toString_finite m e)
      else signed neg (tenths (nearest (10 * r)))
  end.

(** The real number [(-1)^neg * m * 2^e]. *)
Definition signedReal (neg : bool) (m : positive) (e : Z) : Q :=
  if neg then - real m e else real m e.

(** The binary64 number of an integer of magnitude at most 2^53, with the
    sign of the number it was rounded from (so that zero keeps it). *)
Definition ofInteger (neg : bool) (k : Z) : float :=
  let a := of_uint63 (Uint63.of_Z (Z.abs k)) in
  if neg then (- a)%float else a.

(** [Math.round(x)]: the nearest integer, the larger of two equally near;
    NaN, the infinities, the zeros and the integers are returned as they
    are, and a negative number that rounds to zero gives [-0]. *)
Definition Math_round (x : float) : float :=
  match Prim2SF x with
  | S754_finite neg m e =>
      if (0 <=? e)%Z then x
      else ofInteger neg (nearest (signedReal neg m e))
  | _ => x
  end.

(** *** Arrays of strings and the two-argument [Math.min] / [Math.max] *)

(** [Set.prototype.add]: a set keeps its elements in insertion order. *)
Definition setAdd (s : list string) (x : string) : list string :=
  if existsb (String.eqb x) s then s else (s ++ [x])%list.

(** [[...new Set(l)]]: the distinct elements, each at its first place. *)
Definition distinct (l : list string) : list string :=
  fold_left setAdd l [].

(** [l.sort()] on strings: ascending order of the code units, elements that
    compare equal kept in their order; it is built here by insertion. *)
Fixpoint insert (x : string) (l : list string) : list string :=
  match l with
  | [] => [x]
  | y :: rest => if leb x y then x :: l else y :: insert x rest
  end.

Definition sort (l : list string) : list string :=
  fold_right insert [] l.

Definition isNegZero (x : float) : bool :=
  match Prim2SF x with S754_zero true => true | _ => false end.

(** [Math.max(a, b)]: NaN if either is NaN; [+0] is larger than [-0]. *)
Definition Math_max (a b : float) : float :=
  if PrimFloat.is_nan a || PrimFloat.is_nan b then nan
  else if PrimFloat.ltb a b then b
  else if PrimFloat.ltb b a then a
  else if isNegZero a then b else a.

(** [Math.min(a, b)]: NaN if either is NaN; [-0] is smaller than [+0]. *)
Definition Math_min (a b : float) : float :=
  if PrimFloat.is_nan a || PrimFloat.is_nan b then nan
  else if PrimFloat.ltb a b then a
  else if PrimFloat.ltb b a then b
  else if isNegZero a then a else b.

End JS.

(* ================================================================= *)
(** ** models/survey-city.ts *)

Inductive DrillLevel : Type := LCountry | LState | LCity.

Inductive DisplayType : Type := DCircle | DTime | DArea.

Record SurveyCity : Type := mkCity {
  city : string;
  state : string;
  country : string;
  latitude : float;
  longitude : float;
  nps : JS.value;
  csat : JS.value;
  ces : JS.value;
  responseCount : float;
  surveyDate : option string
}.

Record SurveyAggregate : Type := mkAggregate {
  agg_name : string;
  agg_country : option string;
  agg_state : option string;
  agg_latitude : float;
  agg_longitude : float;
  agg_nps : float;
  agg_csat : float;
  agg_ces : float;
  agg_responseCount : float;
  agg_surveyDate : option string;
  agg_level : DrillLevel
}.

(* ================================================================= *)
(** ** The metric value model (map.component.ts, top-level functions) *)

(** [safeMetricValue(value)] *)
Definition safeMetricValue (value : JS.value) : float :=
  let n := JS.Number value in
  if JS.isNumber value && negb (JS.isNaN n) then n else 0%float.

(** [formatMetricValue(value, metric)] *)
Definition formatMetricValue (value : JS.value) (metric : string) : string :=
  let n := safeMetricValue value in
  if negb (JS.isNumber value) || JS.isNaN_value value then "—"
  else if metric =? "ces" then JS.toFixed1 n
  else JS.toString (JS.Math_round n).

(** [getColor(metric, value)]; the metric key is the string the [switch]
    inspects, so that its [default] branch is reachable. *)
Definition getColor (metric : string) (value : float) : string :=
  let v := safeMetricValue (JS.Num value) in
  if metric =? "nps" then
    if JS.ge v 50 then "#22c55e"
    else if JS.ge v 0 then "#eab308"
    else "#ef4444"
  else if metric =? "csat" then
    if JS.ge v 80 then "#22c55e"
    else if JS.ge v 60 then "#eab308"
    else "#ef4444"
  else if metric =? "ces" then
    if JS.lt v 3 then "#22c55e"
    else if JS.le v 5 then "#eab308"
    else "#ef4444"
  else "#6b7280".

(** The specification's reading of the classification: three bands per
    known metric, and the band of an unknown metric key. *)
Inductive ColorBand : Type := Good | Neutral | Bad | Unknown.

Definition band_color (b : ColorBand) : string :=
  match b with
  | Good => "#22c55e"
  | Neutral => "#eab308"
  | Bad => "#ef4444"
  | Unknown => "#6b7280"
  end.

Definition classify (metric : string) (v : float) : ColorBand :=
  if metric =? "nps" then
    if JS.ge v 50 then Good else if JS.ge v 0 then Neutral else Bad
  else if metric =? "csat" then
    if JS.ge v 80 then Good else if JS.ge v 60 then Neutral else Bad
  else if metric =? "ces" then
    if JS.lt v 3 then Good else if JS.le v 5 then Neutral else Bad
  else Unknown.


Definition knownMetric (metric : string) : bool :=
  (metric =? "nps") || (metric =? "csat") || (metric =? "ces").

(* ================================================================= *)
(** ** The aggregation engine (map.component.ts, [aggregateByCountry] and
       [aggregateByState]) *)

(** A [Map<string, V>]: the entries in insertion order, one per key. *)
Module JSMap.

Definition t (V : Type) : Type := list (string * V).

Definition empty {V : Type} : t V := [].

Fixpoint get {V : Type} (m : t V) (k : string) : option V :=
  match m with
  | [] => None
  | (k', v) :: rest => if k' =? k then Some v else get rest k
  end.

(** [set] keeps the position of a key that is present and appends a new
    one. *)
Fixpoint set {V : Type} (m : t V) (k : string) (v : V) : t V :=
  match m with
  | [] => [(k, v)]
  | (k', v') :: rest =>
      if k' =? k then (k, v) :: rest else (k', v') :: set rest k v
  end.

Definition entries {V : Type} (m : t V) : list (string * V) := m.

Definition keys {V : Type} (m : t V) : list string := map fst m.

End JSMap.

(** The running sums kept per group. *)
Record Sums : Type := mkSums {
  lat : float;
  lng : float;
  sum_nps : float;
  sum_csat : float;
  sum_ces : float;
  count : float;
  date : option string
}.

(** [const nps = Number(c.nps)] and its use [(Number.isNaN(nps) ? 0 : nps)]. *)
Definition npsValue (c : SurveyCity) : float :=
  let n := JS.Number (nps c) in
  if JS.isNaN n then 0%float else n.

(** [typeof v === 'number' && !Number.isNaN(v) ? v : d] *)
Definition orDefault (v : JS.value) (d : float) : float :=
  if JS.isNumber v && negb (JS.isNaN_value v) then JS.Number v else d.

Definition csatValue (c : SurveyCity) : float := orDefault (csat c) 50.
Definition cesValue (c : SurveyCity) : float := orDefault (ces c) 3.

(** The object stored for the first record of a group. *)
Definition firstSums (c : SurveyCity) : Sums :=
  let count := responseCount c in
  {| lat := latitude c * count;
     lng := longitude c * count;
     sum_nps := npsValue c * count;
     sum_csat := csatValue c * count;
     sum_ces := cesValue c * count;
     count := count;
     date := surveyDate c |}.

(** [c.surveyDate && (!existing.date || c.surveyDate > (existing.date ?? ''))] *)
Definition newerDate (existing : option string) (c : SurveyCity) : bool :=
  JS.truthy_opt (surveyDate c)
  && (negb (JS.truthy_opt existing)
      || JS.gtb (match surveyDate c with Some s => s | None => "" end)
                (match existing with Some d => d | None => "" end)).

(** The updates of the [else] branch on the stored object. *)
Definition addSums (existing : Sums) (c : SurveyCity) : Sums :=
  let count' := responseCount c in
  {| lat := lat existing + latitude c * count';
     lng := lng existing + longitude c * count';
     sum_nps := sum_nps existing + npsValue c * count';
     sum_csat := sum_csat existing + csatValue c * count';
     sum_ces := sum_ces existing + cesValue c * count';
     count := count existing + count';
     date := if newerDate (date existing) c then surveyDate c
             else date existing |}.

(** One iteration of the [for] loop; the two functions differ in the key. *)
Definition accumulate (key : SurveyCity -> string)
    (m : JSMap.t Sums) (c : SurveyCity) : JSMap.t Sums :=
  match JSMap.get m (key c) with
  | None => JSMap.set m (key c) (firstSums c)
  | Some existing => JSMap.set m (key c) (addSums existing c)
  end.

Definition countryKey (c : SurveyCity) : string := country c.

(** [c.state || c.country] *)
Definition stateKey (c : SurveyCity) : string := JS.or_else (state c) (country c).

Definition countryAggregate (e : string * Sums) : SurveyAggregate :=
  let (name, agg) := e in
  {| agg_name := name;
     agg_country := None;
     agg_state := None;
     agg_latitude := lat agg / count agg;
     agg_longitude := lng agg / count agg;
     agg_nps := sum_nps agg / count agg;
     agg_csat := sum_csat agg / count agg;
     agg_ces := sum_ces agg / count agg;
     agg_responseCount := count agg;
     agg_surveyDate := date agg;
     agg_level := LCountry |}.

Definition aggregateByCountry (cities : list SurveyCity) : list SurveyAggregate :=
  let byCountry := fold_left (accumulate countryKey) cities JSMap.empty in
  map countryAggregate (JSMap.entries byCountry).

Definition inCountry (country' : string) (c : SurveyCity) : bool :=
  country c =? country'.

Definition stateAggregate (country' : string) (e : string * Sums)
  : SurveyAggregate :=
  let (name, agg) := e in
  {| agg_name := name;
     agg_country := Some country';
     agg_state := Some name;
     agg_latitude := lat agg / count agg;
     agg_longitude := lng agg / count agg;
     agg_nps := sum_nps agg / count agg;
     agg_csat := sum_csat agg / count agg;
     agg_ces := sum_ces agg / count agg;
     agg_responseCount := count agg;
     agg_surveyDate := date agg;
     agg_level := LState |}.

Definition aggregateByState (cities : list SurveyCity) (country' : string)
  : list SurveyAggregate :=
  let filtered := filter (inCountry country') cities in
  let byState := fold_left (accumulate stateKey) filtered JSMap.empty in
  map (stateAggregate country') (JSMap.entries byState).

(** *** The weighted mean the specification asks for

    The constituents of a group are the records with the group's key, in
    input order; sums run over them from the first record on, in binary64
    arithmetic like every number of the program. *)

Definition group (key : SurveyCity -> string) (k : string)
    (cities : list SurveyCity) : list SurveyCity :=
  filter (fun c => key c =? k) cities.

Definition sumOf (f : SurveyCity -> float) (l : list SurveyCity) : float :=
  match l with
  | [] => 0%float
  | c :: rest => fold_left (fun acc c' => (acc + f c')%float) rest (f c)
  end.

Definition totalCount (l : list SurveyCity) : float := sumOf responseCount l.

Definition weightedMean (f : SurveyCity -> float) (l : list SurveyCity) : float :=
  (sumOf (fun c => f c * responseCount c) l / totalCount l)%float.

(** The sums of a group, folded over its records in input order. *)
Definition groupSums (g : list SurveyCity) : option Sums :=
  match g with
  | [] => None
  | c :: rest => Some (fold_left addSums rest (firstSums c))
  end.

(** The loop seen from one key: what is stored under it after a record. *)
Definition absorb (o : option Sums) (c : SurveyCity) : option Sums :=
  Some (match o with None => firstSums c | Some a => addSums a c end).

(** An aggregate is the element-wise quotient of sums by their count. *)
Definition averages (agg : SurveyAggregate) (a : Sums) : Prop :=
  agg_latitude agg = (lat a / count a)%float
  /\ agg_longitude agg = (lng a / count a)%float
  /\ agg_nps agg = (sum_nps a / count a)%float
  /\ agg_csat agg = (sum_csat a / count a)%float
  /\ agg_ces agg = (sum_ces a / count a)%float
  /\ agg_responseCount agg = count a.

(** The five averaged fields of an aggregate are the weighted means over [g]. *)
Definition meansOf (agg : SurveyAggregate) (g : list SurveyCity) : Prop :=
  agg_latitude agg = weightedMean latitude g
  /\ agg_longitude agg = weightedMean longitude g
  /\ agg_nps agg = weightedMean npsValue g
  /\ agg_csat agg = weightedMean csatValue g
  /\ agg_ces agg = weightedMean cesValue g.

(** A zero response count: [0] or [-0]. *)
Definition zeroCount (w : float) : Prop := w = 0%float \/ w = (-0)%float.

(** The unweighted mean of a field over a group. *)
Definition simpleMean (f : SurveyCity -> float) (l : list SurveyCity) : float :=
  (sumOf f l / sumOf (fun _ => 1) l)%float.

(** The two records of the specification's scenario, apart from the fields it
    leaves open. *)
Definition scenario (r1 r2 : SurveyCity) : Prop :=
  country r1 = "USA" /\ state r1 = "CA"
  /\ responseCount r1 = 10%float /\ nps r1 = JS.Num 80
  /\ country r2 = "USA" /\ state r2 = "CA"
  /\ responseCount r2 = 10%float /\ nps r2 = JS.Num 40.

Definition scenarioRecord (n : float) : SurveyCity :=
  {| city := "Los Angeles"; state := "CA"; country := "USA";
     latitude := 34; longitude := -118;
     nps := JS.Num n; csat := JS.Undefined; ces := JS.Undefined;
     responseCount := 10; surveyDate := None |}.

(** A record without responses. *)
Definition silentRecord : SurveyCity :=
  {| city := "Pune"; state := "MH"; country := "India";
     latitude := 18.5; longitude := 73.75;
     nps := JS.Num 80; csat := JS.Num 90; ces := JS.Num 2;
     responseCount := 0; surveyDate := None |}.

(** A sum of products with zero weights: a zero or NaN. *)
Definition zeroish (x : float) : Prop :=
  x = 0%float \/ x = (-0)%float \/ x = nan.

Definition undefinedMetrics (agg : SurveyAggregate) : Prop :=
  agg_latitude agg = nan /\ agg_longitude agg = nan
  /\ agg_nps agg = nan /\ agg_csat agg = nan /\ agg_ces agg = nan.

(** What the zero-weight clause of the specification asks of an aggregate
    (the aggregate record has no field to flag a zero weight with): each
    metric is a number, the simple mean of its group. *)
Definition zeroWeightSafe (agg : SurveyAggregate) (g : list SurveyCity) : Prop :=
  agg_nps agg = simpleMean npsValue g
  /\ agg_csat agg = simpleMean csatValue g
  /\ agg_ces agg = simpleMean cesValue g
  /\ PrimFloat.is_nan (agg_nps agg) = false
  /\ PrimFloat.is_nan (agg_csat agg) = false
  /\ PrimFloat.is_nan (agg_ces agg) = false.

(** The order of strings as the language defines it, apart from the
    comparison functions above: [a] precedes [b] when, unit by unit, [a] is a
    prefix of [b] or has the smaller unit at the first place where they
    differ. *)
Inductive unitsLe : list N -> list N -> Prop :=
| unitsLe_nil b : unitsLe [] b
| unitsLe_lt x y a b : (x < y)%N -> unitsLe (x :: a) (y :: b)
| unitsLe_eq x a b : unitsLe a b -> unitsLe (x :: a) (x :: b).

Definition precedes (a b : string) : Prop :=
  unitsLe (JS.codeUnits a) (JS.codeUnits b).

(** A record with a survey date: the field is present and not empty. *)
Definition hasDate (r : SurveyCity) : bool := JS.truthy_opt (surveyDate r).

(** [d] is the latest date of the group [g]: the greatest of the dates of
    its records when some record has one, else whatever the date field of
    the first record is. *)
Definition latestDateOf (g : list SurveyCity) (d : option string) : Prop :=
  ((forall r, In r g -> hasDate r = false) ->
   d = match g with r0 :: _ => surveyDate r0 | [] => None end)
  /\ ((exists r, In r g /\ hasDate r = true) ->
      exists s,
        d = Some s /\ s <> ""
        /\ (exists r, In r g /\ surveyDate r = Some s)
        /\ forall r d', In r g -> surveyDate r = Some d' ->
                        precedes d' s).

(** The state of the date field while a group is summed: nothing dated seen
    yet and the field still that of the first record, or the greatest date
    seen. *)
Inductive dateSeen (d0 : option string) (seen : list SurveyCity)
  : option string -> Prop :=
| dateSeen_none :
    JS.truthy_opt d0 = false ->
    (forall r, In r seen -> hasDate r = false) ->
    dateSeen d0 seen d0
| dateSeen_some s :
    s <> "" ->
    (exists r, In r seen /\ surveyDate r = Some s) ->
    (forall r d', In r seen -> surveyDate r = Some d' ->
                  JS.leb d' s = true) ->
    dateSeen d0 seen (Some s).

(** Two dated records of one state, the later one first. *)
Definition datedRecord (d : string) : SurveyCity :=
  {| city := "Austin"; state := "TX"; country := "USA";
     latitude := 30.25; longitude := -97.75;
     nps := JS.Num 55; csat := JS.Num 70; ces := JS.Num 4;
     responseCount := 12; surveyDate := Some d |}.

Definition datedSample : list SurveyCity :=
  [datedRecord "2024-06-15T10:30:00Z"; datedRecord "2024-01-05T08:00:00Z"].

(* ================================================================= *)
(** ** services/geo.service.ts *)

Module Geo.

(** What reading a property of a plain object gives: a string the object
    holds itself, or a member it inherits from [Object.prototype] (a
    function, or for [__proto__] the prototype object), named here by its
    key. *)
Inductive property : Type :=
| Own (s : string)
| Inherited (key : string).

Definition COUNTRY_NAME_TO_GEO : list (string * string) :=
  [ ("USA", "United States of America");
    ("UK", "United Kingdom");
    ("UAE", "United Arab Emirates");
    ("Czech Republic", "Czechia");
    ("South Korea", "South Korea");
    ("Russia", "Russia");
    ("Vietnam", "Vietnam");
    ("Taiwan", "Taiwan") ].

(** The keys every object literal inherits. *)
Definition Object_prototype : list string :=
  [ "constructor"; "hasOwnProperty"; "isPrototypeOf";
    "propertyIsEnumerable"; "toLocaleString"; "toString"; "valueOf";
    "__proto__"; "__defineGetter__"; "__defineSetter__";
    "__lookupGetter__"; "__lookupSetter__" ].

Fixpoint own (o : list (string * string)) (k : string) : option string :=
  match o with
  | [] => None
  | (k', v) :: rest => if k' =? k then Some v else own rest k
  end.

(** [o[k]]: the own property, else the inherited one, else [undefined]. *)
Definition get (o : list (string * string)) (k : string) : option property :=
  match own o k with
  | Some v => Some (Own v)
  | None =>
      if existsb (String.eqb k) Object_prototype then Some (Inherited k)
      else None
  end.

(** [COUNTRY_NAME_TO_GEO[surveyCountry] ?? surveyCountry] *)
Definition geoNameForCountry (surveyCountry : string) : property :=
  match get COUNTRY_NAME_TO_GEO surveyCountry with
  | Some v => v
  | None => Own surveyCountry
  end.

Definition inTable (s : string) : bool :=
  existsb (fun e => fst e =? s) COUNTRY_NAME_TO_GEO.

(** Equality of [Map] keys that are results of the lookup: strings by value,
    inherited members by identity. *)
Definition property_eqb (a b : property) : bool :=
  match a, b with
  | Own s, Own s' => s =? s'
  | Inherited k, Inherited k' => k =? k'
  | _, _ => false
  end.

End Geo.

(* ================================================================= *)
(** ** The drill-down view state (map.component.ts, class [MapComponent]) *)

(** The signals of the component. *)
Record ViewState : Type := mkView {
  selectedMetric : string;
  surveyData : list SurveyCity;
  loading : bool;
  error : option string;
  displayType : DisplayType;
  drillLevel : DrillLevel;
  selectedCountry : option string;
  selectedState : option string;
  baseLayerKey : string
}.

(** The values the signals are created with. *)
Definition initialState : ViewState :=
  {| selectedMetric := "nps";
     surveyData := [];
     loading := true;
     error := None;
     displayType := DCircle;
     drillLevel := LCountry;
     selectedCountry := None;
     selectedState := None;
     baseLayerKey := "standard" |}.

Definition set_drillLevel (l : DrillLevel) (st : ViewState) : ViewState :=
  mkView (selectedMetric st) (surveyData st) (loading st) (error st)
         (displayType st) l (selectedCountry st) (selectedState st)
         (baseLayerKey st).

Definition set_selectedCountry (c : option string) (st : ViewState) : ViewState :=
  mkView (selectedMetric st) (surveyData st) (loading st) (error st)
         (displayType st) (drillLevel st) c (selectedState st)
         (baseLayerKey st).

Definition set_selectedState (s : option string) (st : ViewState) : ViewState :=
  mkView (selectedMetric st) (surveyData st) (loading st) (error st)
         (displayType st) (drillLevel st) (selectedCountry st) s
         (baseLayerKey st).

(** The handlers, as the sequence of signal writes each performs.  Redrawing
    the markers and refitting the map read the state and write none of it. *)

Definition setDrillLevel (level : DrillLevel) (country' state' : option string)
    (st : ViewState) : ViewState :=
  set_selectedState state' (set_selectedCountry country' (set_drillLevel level st)).

Definition onCountrySelect (country' : string) (st : ViewState) : ViewState :=
  set_drillLevel LState
    (set_selectedState None (set_selectedCountry (Some country') st)).

Definition onStateSelect (state' : string) (st : ViewState) : ViewState :=
  set_drillLevel LCity (set_selectedState (Some state') st).

Definition onStateSelectFromSelect (value : string) (st : ViewState) : ViewState :=
  if JS.truthy value then onStateSelect value st else st.

Definition goToWorld (st : ViewState) : ViewState :=
  setDrillLevel LCountry None None st.

Definition goBackFromState (st : ViewState) : ViewState :=
  setDrillLevel LCountry None None st.

Definition goBackFromCity (st : ViewState) : ViewState :=
  let country' := selectedCountry st in
  setDrillLevel LState country' None st.

(** An item handed to the map: an aggregate or a raw record. *)
Definition MapItem : Type := (SurveyAggregate + SurveyCity)%type.

Definition aggregates (l : list SurveyAggregate) : list MapItem := map inl l.
Definition rawCities (l : list SurveyCity) : list MapItem := map inr l.

(** [(c.state || c.country) === state] *)
Definition inState (state' : string) (c : SurveyCity) : bool :=
  stateKey c =? state'.

(** [level === 'country'] and the like. *)
Definition level_eqb (a b : DrillLevel) : bool :=
  match a, b with
  | LCountry, LCountry | LState, LState | LCity, LCity => true
  | _, _ => false
  end.

(** The computed signal [currentMapData].  The tests [country], [!country]
    and [state != null && state !== ''] all ask for a string that is neither
    null nor empty, which [JS.nonEmpty] returns. *)
Definition currentMapData (st : ViewState) : list MapItem :=
  let data := surveyData st in
  let level := drillLevel st in
  let country' := JS.nonEmpty (selectedCountry st) in
  let state' := JS.nonEmpty (selectedState st) in
  if level_eqb level LCountry then aggregates (aggregateByCountry data)
  else
    match level_eqb level LState, country' with
    | true, Some c => aggregates (aggregateByState data c)
    | _, _ =>
        if level_eqb level LCity then
          match country' with
          | None => rawCities data
          | Some c =>
              let list := filter (inCountry c) data in
              match state' with
              | Some s => rawCities (filter (inState s) list)
              | None => rawCities list
              end
          end
        else []
    end.

(** The selections as the specification reads them: a selection is a string
    that is neither null nor empty. *)
Definition selected (o : option string) (s : string) : Prop :=
  o = Some s /\ s <> "".

Definition unselected (o : option string) : Prop :=
  o = None \/ o = Some "".

(** A view with data, for the examples: the two CA records and a silent one. *)
Definition sampleData : list SurveyCity :=
  [scenarioRecord 80; scenarioRecord 40; silentRecord].

Definition sampleView (level : DrillLevel) (country' state' : option string)
  : ViewState :=
  {| selectedMetric := "nps";
     surveyData := sampleData;
     loading := false;
     error := None;
     displayType := DCircle;
     drillLevel := level;
     selectedCountry := country';
     selectedState := state';
     baseLayerKey := "standard" |}.


(** *** The groups and the defaults in the specification's words

    Written from the specification, not from the functions above: the number
    a metric field stands for, and the records that make up a country or a
    state of a country. *)

(** The number of a metric field, or the default [d] when the field is
    missing or NaN. *)
Definition valueOr (d : float) (v : JS.value) : float :=
  match v with
  | JS.Num n => if PrimFloat.is_nan n then d else n
  | JS.Undefined => d
  end.

(** The records of country [k]. *)
Definition recordsOfCountry (k : string) (cities : list SurveyCity)
  : list SurveyCity :=
  filter (fun r => country r =? k) cities.

(** The state of a record, its country standing in for an empty state. *)
Definition stateOrCountry (r : SurveyCity) : string :=
  if state r =? "" then country r else state r.

(** The records of state [k] within country [c]. *)
Definition recordsOfState (c k : string) (cities : list SurveyCity)
  : list SurveyCity :=
  filter (fun r => (country r =? c) && (stateOrCountry r =? k)) cities.

(** The five averaged fields of an aggregate are the weighted means over
    [g], a missing NPS counting as 0, a missing CSAT as 50 and a missing CES
    as 3. *)
Definition weightedMeans (agg : SurveyAggregate) (g : list SurveyCity) : Prop :=
  agg_latitude agg = weightedMean latitude g
  /\ agg_longitude agg = weightedMean longitude g
  /\ agg_nps agg = weightedMean (fun r => valueOr 0 (nps r)) g
  /\ agg_csat agg = weightedMean (fun r => valueOr 50 (csat r)) g
  /\ agg_ces agg = weightedMean (fun r => valueOr 3 (ces r)) g.

(** Records of two countries, of two states and of no state, with metrics
    present, missing and NaN. *)
Definition mixedData : list SurveyCity :=
  [ {| city := "Los Angeles"; state := "CA"; country := "USA";
       latitude := 34; longitude := -118;
       nps := JS.Num 80; csat := JS.Undefined; ces := JS.Undefined;
       responseCount := 10; surveyDate := None |};
    {| city := "Pune"; state := "MH"; country := "India";
       latitude := 18.5; longitude := 73.75;
       nps := JS.Num 20; csat := JS.Num 10; ces := JS.Num 7;
       responseCount := 7; surveyDate := None |};
    {| city := "San Diego"; state := "CA"; country := "USA";
       latitude := 32; longitude := -117;
       nps := JS.Undefined; csat := JS.Num 90; ces := JS.Num nan;
       responseCount := 10; surveyDate := None |};
    {| city := "New York"; state := "NY"; country := "USA";
       latitude := 40.75; longitude := -74;
       nps := JS.Num 10; csat := JS.Num 30; ces := JS.Num 5;
       responseCount := 5; surveyDate := None |};
    {| city := "Washington"; state := ""; country := "USA";
       latitude := 39; longitude := -77;
       nps := JS.Num (-30); csat := JS.Num 40; ces := JS.Num 6;
       responseCount := 4; surveyDate := None |} ].

Definition mixedView (level : DrillLevel) (country' state' : option string)
  : ViewState :=
  {| selectedMetric := "nps";
     surveyData := mixedData;
     loading := false;
     error := None;
     displayType := DCircle;
     drillLevel := level;
     selectedCountry := country';
     selectedState := state';
     baseLayerKey := "standard" |}.

(* ================================================================= *)
(** ** The derived lists and the legend (map.component.ts) *)

(** The computed signal [countries]. *)
Definition countries (st : ViewState) : list string :=
  let data := surveyData st in
  JS.sort (JS.distinct (map country data)).

(** The computed signal [states]. *)
Definition states (st : ViewState) : list string :=
  match JS.nonEmpty (selectedCountry st) with
  | None => []
  | Some country' =>
      let data := surveyData st in
      JS.sort (JS.distinct (map stateKey (filter (inCountry country') data)))
  end.

(** The computed signal [citiesInSelection]. *)
Definition citiesInSelection (st : ViewState) : list SurveyCity :=
  let data := surveyData st in
  match JS.nonEmpty (selectedCountry st) with
  | None => data
  | Some country' =>
      let list := filter (inCountry country') data in
      match JS.nonEmpty (selectedState st) with
      | Some s => filter (inState s) list
      | None => list
      end
  end.

(** The computed signal [legendRanges]: label and colour of each range. *)
Definition legendRanges (st : ViewState) : list (string * string) :=
  let metric := selectedMetric st in
  if metric =? "nps" then
    [("50+", "#22c55e"); ("0–49", "#eab308"); ("<0", "#ef4444")]
  else if metric =? "csat" then
    [("80+", "#22c55e"); ("60–79", "#eab308"); ("<60", "#ef4444")]
  else
    [("1–2.9", "#22c55e"); ("3–5", "#eab308"); (">5", "#ef4444")].

(** An array in ascending order of the code units: each element is at most
    every later one. *)
Definition ascending : list string -> Prop := StronglySorted precedes.

(** Sorted by the comparison that [sort()] uses. *)
Definition sortedByLeb : list string -> Prop :=
  StronglySorted (fun a b => JS.leb a b = true).

(* ================================================================= *)
(** ** Loading and the remaining handlers *)

Definition set_selectedMetric (m : string) (st : ViewState) : ViewState :=
  mkView m (surveyData st) (loading st) (error st) (displayType st)
         (drillLevel st) (selectedCountry st) (selectedState st)
         (baseLayerKey st).

Definition set_surveyData (d : list SurveyCity) (st : ViewState) : ViewState :=
  mkView (selectedMetric st) d (loading st) (error st) (displayType st)
         (drillLevel st) (selectedCountry st) (selectedState st)
         (baseLayerKey st).

Definition set_loading (b : bool) (st : ViewState) : ViewState :=
  mkView (selectedMetric st) (surveyData st) b (error st) (displayType st)
         (drillLevel st) (selectedCountry st) (selectedState st)
         (baseLayerKey st).

Definition set_error (e : option string) (st : ViewState) : ViewState :=
  mkView (selectedMetric st) (surveyData st) (loading st) e (displayType st)
         (drillLevel st) (selectedCountry st) (selectedState st)
         (baseLayerKey st).

Definition set_displayType (d : DisplayType) (st : ViewState) : ViewState :=
  mkView (selectedMetric st) (surveyData st) (loading st) (error st) d
         (drillLevel st) (selectedCountry st) (selectedState st)
         (baseLayerKey st).

Definition set_baseLayerKey (k : string) (st : ViewState) : ViewState :=
  mkView (selectedMetric st) (surveyData st) (loading st) (error st)
         (displayType st) (drillLevel st) (selectedCountry st)
         (selectedState st) k.

(** [loadData]: the writes before the request, *)
Definition loadStart (st : ViewState) : ViewState :=
  set_error None (set_loading true st).

(** on its [next], *)
Definition loadNext (data : list SurveyCity) (st : ViewState) : ViewState :=
  set_loading false (set_surveyData data st).

(** and on its [error], [err?.message ?? 'Failed to load survey data']. *)
Definition loadError (message : option string) (st : ViewState) : ViewState :=
  set_error
    (Some (match message with
           | Some m => m
           | None => "Failed to load survey data"
           end))
    (set_loading false st).

(** The handlers that write a signal, the arrival of data apart. *)
Inductive Event : Type :=
| EvSetDrillLevel (level : DrillLevel) (country' state' : option string)
| EvCountrySelect (country' : string)
| EvStateSelect (state' : string)
| EvStateSelectFromSelect (value : string)
| EvGoToWorld
| EvGoBackFromState
| EvGoBackFromCity
| EvSetMetric (metric : string)
| EvSetDisplayType (d : DisplayType)
| EvSetBaseLayer (key : string)
| EvLoadStart
| EvLoadError (message : option string).

Definition handle (st : ViewState) (e : Event) : ViewState :=
  match e with
  | EvSetDrillLevel level c s => setDrillLevel level c s st
  | EvCountrySelect c => onCountrySelect c st
  | EvStateSelect s => onStateSelect s st
  | EvStateSelectFromSelect v => onStateSelectFromSelect v st
  | EvGoToWorld => goToWorld st
  | EvGoBackFromState => goBackFromState st
  | EvGoBackFromCity => goBackFromCity st
  | EvSetMetric m => set_selectedMetric m st
  | EvSetDisplayType d => set_displayType d st
  | EvSetBaseLayer k => set_baseLayerKey k st
  | EvLoadStart => loadStart st
  | EvLoadError m => loadError m st
  end.

Definition run (events : list Event) (st : ViewState) : ViewState :=
  fold_left handle events st.

(* ================================================================= *)
(** ** Markers ([updateMarkers] and [buildTooltipContent]) *)

Inductive SurveyMetric : Type := MetricNps | MetricCsat | MetricCes.

Definition metricKey (m : SurveyMetric) : string :=
  match m with
  | MetricNps => "nps"
  | MetricCsat => "csat"
  | MetricCes => "ces"
  end.

Definition METRIC_LABELS (m : SurveyMetric) : string :=
  match m with
  | MetricNps => "NPS"
  | MetricCsat => "CSAT"
  | MetricCes => "CES"
  end.

Definition RADIUS_MIN : float := 5.
Definition RADIUS_MAX : float := 25.
Definition RADIUS_DIVISOR : float := 10.

(** [item[metric]] *)
Definition itemMetric (metric : SurveyMetric) (item : MapItem) : JS.value :=
  match item, metric with
  | inl a, MetricNps => JS.Num (agg_nps a)
  | inl a, MetricCsat => JS.Num (agg_csat a)
  | inl a, MetricCes => JS.Num (agg_ces a)
  | inr c, MetricNps => nps c
  | inr c, MetricCsat => csat c
  | inr c, MetricCes => ces c
  end.

Definition itemResponseCount (item : MapItem) : float :=
  match item with inl a => agg_responseCount a | inr c => responseCount c end.

Definition itemSurveyDate (item : MapItem) : option string :=
  match item with inl a => agg_surveyDate a | inr c => surveyDate c end.

(** The fill colour of an item's marker:
    [getColor(metric, safeMetricValue(item[metric]))]. *)
Definition markerColor (metric : SurveyMetric) (item : MapItem) : string :=
  let value := itemMetric metric item in
  let safeVal := safeMetricValue value in
  getColor (metricKey metric) safeVal.

(** The label: the name of an aggregate, "city, state, country" of a record,
    the state left out when it is empty. *)
Definition itemLabel (item : MapItem) : string :=
  match item with
  | inl a => agg_name a
  | inr c =>
      city c ++ ", " ++ (if JS.truthy (state c) then state c ++ ", " else "")
      ++ country c
  end.

(** The radius of a circle marker, in pixels. *)
Definition circleRadius (item : MapItem) : float :=
  JS.Math_min RADIUS_MAX
    (JS.Math_max RADIUS_MIN (itemResponseCount item / RADIUS_DIVISOR)).

(** The radius of an area circle, in metres. *)
Definition areaRadius (item : MapItem) : float :=
  let level := match item with inl a => agg_level a | inr _ => LCity end in
  if level_eqb level LCountry then 600000%float
  else if level_eqb level LState then 180000%float
  else 70000%float.

(** The click handler bound to a marker; records have none. *)
Definition markerClick (item : MapItem) (st : ViewState) : ViewState :=
  match item with
  | inl a =>
      if level_eqb (agg_level a) LCountry || level_eqb (agg_level a) LState then
        let st1 :=
          if level_eqb (agg_level a) LCountry
          then onCountrySelect (agg_name a) st else st in
        if level_eqb (agg_level a) LState && JS.truthy_opt (agg_country a)
        then onStateSelect (agg_name a) st1 else st1
      else st
  | inr _ => st
  end.

(** The test of the [if] in [updateMarkers]:
    [isCountryChoropleth && data.length > 0]. *)
Definition useChoropleth (st : ViewState) : bool :=
  let data := currentMapData st in
  let isCountryChoropleth :=
    match displayType st with DArea => true | _ => false end
    && level_eqb (drillLevel st) LCountry in
  isCountryChoropleth && (0 <? List.length data)%nat.

(** What one run of [updateMarkers] does, after clearing the old markers:
    nothing when there is no map; a call of [addChoroplethLayer] on the
    render set and the selected metric, and no marker; or one marker per
    item of the render set.  [hasMap] is whether [this.map] is set.  The
    choropleth layer itself is added later, when the geography arrives. *)
Inductive MarkerBranch : Type :=
| NoMap
| ChoroplethCall (data : list MapItem) (metric : string)
| MarkerPerItem (data : list MapItem).

Definition updateMarkersBranch (hasMap : bool) (st : ViewState) : MarkerBranch :=
  if negb hasMap then NoMap
  else
    let data := currentMapData st in
    let metric := selectedMetric st in
    let isCountryChoropleth :=
      match displayType st with DArea => true | _ => false end
      && level_eqb (drillLevel st) LCountry in
    if isCountryChoropleth && (0 <? List.length data)%nat
    then ChoroplethCall data metric
    else MarkerPerItem data.

Section Tooltip.

(** [formatSurveyTime] on a non-empty string formats a [Date] in the locale
    of the browser; it is left open. *)
Variable formatSurveyTime : string -> string.

(** The lines of [buildTooltipContent] that [filter(Boolean)] keeps. *)
Definition tooltipLines (item : MapItem) (metric : SurveyMetric)
    (value : float) (label : string) (responseCount' : float)
    (surveyDate' : option string) : list string :=
  let metricLabel := METRIC_LABELS metric in
  let headline :=
    metricLabel ++ ": " ++ formatMetricValue (JS.Num value) (metricKey metric) in
  let counted := "Response Count: " ++ JS.toString responseCount' in
  let npsLine := "NPS: " ++ formatMetricValue (itemMetric MetricNps item) "nps" in
  let csatLine :=
    "CSAT: " ++ formatMetricValue (itemMetric MetricCsat item) "csat" in
  let cesLine := "CES: " ++ formatMetricValue (itemMetric MetricCes item) "ces" in
  let surveyLine :=
    match JS.nonEmpty surveyDate' with
    | Some d => ["Survey: " ++ formatSurveyTime d]
    | None => []
    end in
  List.app (if JS.truthy label then [label] else [])
    (List.app [headline; counted; npsLine; csatLine; cesLine] surveyLine).

Definition buildTooltipContent (item : MapItem) (metric : SurveyMetric)
    (value : float) (label : string) (responseCount' : float)
    (surveyDate' : option string) : string :=
  String.concat "<br>"
    (tooltipLines item metric value label responseCount' surveyDate').

(** The tooltip [updateMarkers] binds to the marker of an item, and its
    lines. *)
Definition markerTooltip (metric : SurveyMetric) (item : MapItem) : string :=
  buildTooltipContent item metric
    (safeMetricValue (itemMetric metric item)) (itemLabel item)
    (itemResponseCount item) (itemSurveyDate item).

Definition markerTooltipLines (metric : SurveyMetric) (item : MapItem)
  : list string :=
  tooltipLines item metric
    (safeMetricValue (itemMetric metric item)) (itemLabel item)
    (itemResponseCount item) (itemSurveyDate item).

End Tooltip.

(* ================================================================= *)
(** ** The choropleth ([addChoroplethLayer]) *)

Record GeoInfo : Type := mkGeoInfo {
  info_value : float;
  info_color : string;
  info_agg : SurveyAggregate
}.

(** [agg[metric]] *)
Definition aggMetric (metric : SurveyMetric) (agg : SurveyAggregate) : float :=
  match metric with
  | MetricNps => agg_nps agg
  | MetricCsat => agg_csat agg
  | MetricCes => agg_ces agg
  end.

(** The [Map] [byGeoName], keyed by what the name lookup returned. *)
Fixpoint geoGet (m : list (Geo.property * GeoInfo)) (k : Geo.property)
  : option GeoInfo :=
  match m with
  | [] => None
  | (k', v) :: rest => if Geo.property_eqb k' k then Some v else geoGet rest k
  end.

Fixpoint geoSet (m : list (Geo.property * GeoInfo)) (k : Geo.property)
    (v : GeoInfo) : list (Geo.property * GeoInfo) :=
  match m with
  | [] => [(k, v)]
  | (k', v') :: rest =>
      if Geo.property_eqb k' k then (k, v) :: rest
      else (k', v') :: geoSet rest k v
  end.

Definition geoInfo (metric : SurveyMetric) (agg : SurveyAggregate) : GeoInfo :=
  let value := aggMetric metric agg in
  {| info_value := value;
     info_color := getColor (metricKey metric) value;
     info_agg := agg |}.

Definition byGeoName (metric : SurveyMetric) (aggregates' : list SurveyAggregate)
  : list (Geo.property * GeoInfo) :=
  fold_left
    (fun m agg =>
       geoSet m (Geo.geoNameForCountry (agg_name agg)) (geoInfo metric agg))
    aggregates' [].

(** The last element of a list that satisfies a test. *)
Fixpoint lastWith {A : Type} (p : A -> bool) (l : list A) : option A :=
  match l with
  | [] => None
  | a :: rest =>
      match lastWith p rest with
      | Some x => Some x
      | None => if p a then Some a else None
      end
  end.

(** The aggregate is drawn on the feature of that name. *)
Definition drawnOn (name : string) (agg : SurveyAggregate) : bool :=
  Geo.property_eqb (Geo.geoNameForCountry (agg_name agg)) (Geo.Own name).

(** [name ? byGeoName.get(name) : undefined], for the name of a feature. *)
Definition featureInfo (metric : SurveyMetric)
    (aggregates' : list SurveyAggregate) (name : option string)
  : option GeoInfo :=
  match JS.nonEmpty name with
  | Some n => geoGet (byGeoName metric aggregates') (Geo.Own n)
  | None => None
  end.

(** The fill colour of a feature: [info?.color ?? '#e5e7eb']. *)
Definition featureFill (metric : SurveyMetric)
    (aggregates' : list SurveyAggregate) (name : option string) : string :=
  match featureInfo metric aggregates' name with
  | Some info => info_color info
  | None => "#e5e7eb"
  end.

(** The click handler of a feature that has an aggregate. *)
Definition featureClick (metric : SurveyMetric)
    (aggregates' : list SurveyAggregate) (name : option string)
    (st : ViewState) : ViewState :=
  match featureInfo metric aggregates' name with
  | Some info => onCountrySelect (agg_name (info_agg info)) st
  | None => st
  end.

(* ================================================================= *)
(** ** The earlier revision of the component (second file of the listing) *)

Module Legacy.

(** [getColor] compares the value as it comes. *)
Definition getColor (metric : string) (value : float) : string :=
  if metric =? "nps" then
    if JS.ge value 50 then "#22c55e"
    else if JS.ge value 0 then "#eab308"
    else "#ef4444"
  else if metric =? "csat" then
    if JS.ge value 80 then "#22c55e"
    else if JS.ge value 60 then "#eab308"
    else "#ef4444"
  else if metric =? "ces" then
    if JS.lt value 3 then "#22c55e"
    else if JS.le value 5 then "#eab308"
    else "#ef4444"
  else "#6b7280".

(** The sums multiply the fields as they come: [c.nps * count], where a
    missing field is [undefined] and the product NaN. *)
Definition firstSums (c : SurveyCity) : Sums :=
  let count := responseCount c in
  {| lat := latitude c * count;
     lng := longitude c * count;
     sum_nps := JS.Number (nps c) * count;
     sum_csat := JS.Number (csat c) * count;
     sum_ces := JS.Number (ces c) * count;
     count := count;
     date := surveyDate c |}.

Definition addSums (existing : Sums) (c : SurveyCity) : Sums :=
  let count' := responseCount c in
  {| lat := lat existing + latitude c * count';
     lng := lng existing + longitude c * count';
     sum_nps := sum_nps existing + JS.Number (nps c) * count';
     sum_csat := sum_csat existing + JS.Number (csat c) * count';
     sum_ces := sum_ces existing + JS.Number (ces c) * count';
     count := count existing + count';
     date := if newerDate (date existing) c then surveyDate c
             else date existing |}.

Definition accumulate (key : SurveyCity -> string)
    (m : JSMap.t Sums) (c : SurveyCity) : JSMap.t Sums :=
  match JSMap.get m (key c) with
  | None => JSMap.set m (key c) (firstSums c)
  | Some existing => JSMap.set m (key c) (addSums existing c)
  end.

Definition aggregateByCountry (cities : list SurveyCity) : list SurveyAggregate :=
  let byCountry := fold_left (accumulate countryKey) cities JSMap.empty in
  map countryAggregate (JSMap.entries byCountry).

Definition aggregateByState (cities : list SurveyCity) (country' : string)
  : list SurveyAggregate :=
  let filtered := filter (inCountry country') cities in
  let byState := fold_left (accumulate stateKey) filtered JSMap.empty in
  map (stateAggregate country') (JSMap.entries byState).

End Legacy.

(** A record with all three metrics present as numbers. *)
Definition numericMetrics (c : SurveyCity) : Prop :=
  exists n s e,
    nps c = JS.Num n /\ csat c = JS.Num s /\ ces c = JS.Num e
    /\ PrimFloat.is_nan n = false /\ PrimFloat.is_nan s = false
    /\ PrimFloat.is_nan e = false.

(* ================================================================= *)
(** ** Properties of the insertion-ordered map *)

Module JSMapFacts.
Import JSMap.

Section Facts.
Context {V : Type}.
Implicit Types (m : t V) (k : string) (v : V).

Lemma get_set_same m k v : get (set m k v) k = Some v.
Proof.
  induction m as [|[k' v'] rest IH]; simpl.
  - now rewrite String.eqb_refl.
  - destruct (k' =? k) eqn:E; simpl.
    + now rewrite String.eqb_refl.
    + now rewrite E.
Qed.

Lemma get_set_other m k k' v : k <> k' -> get (set m k v) k' = get m k'.
Proof.
  intros Hne. induction m as [|[k0 v0] rest IH]; simpl.
  - apply String.eqb_neq in Hne. now rewrite Hne.
  - destruct (k0 =? k) eqn:E; simpl.
    + apply String.eqb_eq in E. subst k0.
      apply String.eqb_neq in Hne. now rewrite Hne.
    + now rewrite IH.
Qed.

Lemma get_None_keys m k : get m k = None <-> ~ In k (keys m).
Proof.
  induction m as [|[k0 v0] rest IH]; simpl.
  - tauto.
  - destruct (k0 =? k) eqn:E.
    + apply String.eqb_eq in E. split; [discriminate | tauto].
    + apply String.eqb_neq in E. rewrite IH. tauto.
Qed.

Lemma keys_set_present m k v :
  get m k <> None -> keys (set m k v) = keys m.
Proof.
  induction m as [|[k0 v0] rest IH]; simpl; intros H.
  - congruence.
  - destruct (k0 =? k) eqn:E; simpl.
    + apply String.eqb_eq in E. now subst.
    + now rewrite IH.
Qed.

Lemma keys_set_absent m k v :
  get m k = None -> keys (set m k v) = (keys m ++ [k])%list.
Proof.
  induction m as [|[k0 v0] rest IH]; simpl; intros H.
  - reflexivity.
  - destruct (k0 =? k) eqn:E; [discriminate|]. simpl. now rewrite IH.
Qed.

Lemma NoDup_keys_set m k v : NoDup (keys m) -> NoDup (keys (set m k v)).
Proof.
  intros Hnd. destruct (get m k) eqn:G.
  - rewrite keys_set_present; congruence.
  - rewrite keys_set_absent by assumption.
    apply get_None_keys in G.
    apply NoDup_app; [assumption | repeat constructor; simpl; tauto |].
    intros x Hx [Hk|[]]. now subst.
Qed.

Lemma get_In m k v : get m k = Some v -> In (k, v) (entries m).
Proof.
  induction m as [|[k0 v0] rest IH]; simpl; [discriminate|].
  destruct (k0 =? k) eqn:E.
  - apply String.eqb_eq in E. intros [= ->]. subst. now left.
  - intros H. right. now apply IH.
Qed.

Lemma In_get m k v :
  NoDup (keys m) -> In (k, v) (entries m) -> get m k = Some v.
Proof.
  induction m as [|[k0 v0] rest IH]; simpl; [tauto|].
  intros Hnd [Heq|Hin].
  - injection Heq as -> ->. now rewrite String.eqb_refl.
  - inversion Hnd as [|? ? Hnotin Hnd']; subst.
    destruct (k0 =? k) eqn:E.
    + apply String.eqb_eq in E. subst k0. exfalso. apply Hnotin.
      change (In (fst (k, v)) (map fst rest)). now apply in_map.
    + now apply IH.
Qed.

End Facts.
End JSMapFacts.

(* ================================================================= *)
(** ** The aggregation loop, group by group *)

Section Aggregation.
Variable key : SurveyCity -> string.

Lemma get_accumulate m c k :
  JSMap.get (accumulate key m c) k =
  if key c =? k then absorb (JSMap.get m k) c else JSMap.get m k.
Proof.
  unfold accumulate, absorb. destruct (key c =? k) eqn:E.
  - apply String.eqb_eq in E. subst k.
    destruct (JSMap.get m (key c)); now rewrite JSMapFacts.get_set_same.
  - apply String.eqb_neq in E.
    destruct (JSMap.get m (key c)); now rewrite JSMapFacts.get_set_other.
Qed.

Lemma get_fold_accumulate cities : forall m k,
  JSMap.get (fold_left (accumulate key) cities m) k =
  fold_left absorb (group key k cities) (JSMap.get m k).
Proof.
  induction cities as [|c rest IH]; intros m k; simpl; [reflexivity|].
  rewrite IH, get_accumulate.
  destruct (key c =? k); reflexivity.
Qed.

Lemma fold_absorb_Some g : forall a,
  fold_left absorb g (Some a) = Some (fold_left addSums g a).
Proof. induction g as [|c rest IH]; intros a; simpl; [reflexivity | apply IH]. Qed.

Lemma get_groupSums cities k :
  JSMap.get (fold_left (accumulate key) cities JSMap.empty) k =
  groupSums (group key k cities).
Proof.
  rewrite get_fold_accumulate. simpl.
  destruct (group key k cities) as [|c rest]; simpl; [reflexivity|].
  apply fold_absorb_Some.
Qed.

Lemma NoDup_keys_accumulate cities : forall m,
  NoDup (JSMap.keys m) ->
  NoDup (JSMap.keys (fold_left (accumulate key) cities m)).
Proof.
  induction cities as [|c rest IH]; intros m Hnd; simpl; [assumption|].
  apply IH. unfold accumulate.
  destruct (JSMap.get m (key c)); now apply JSMapFacts.NoDup_keys_set.
Qed.

(** The entries of the finished map are the non-empty groups with their
    sums. *)
Lemma entries_groupSums cities k a :
  In (k, a) (JSMap.entries (fold_left (accumulate key) cities JSMap.empty))
  <-> groupSums (group key k cities) = Some a.
Proof.
  rewrite <- get_groupSums. split.
  - apply JSMapFacts.In_get, NoDup_keys_accumulate. constructor.
  - apply JSMapFacts.get_In.
Qed.

End Aggregation.

(** Each running sum is the sum of its field over the group. *)
Lemma fold_addSums_field (proj : Sums -> float) (f : SurveyCity -> float) :
  (forall a c, proj (addSums a c) = (proj a + f c)%float) ->
  forall g a,
    proj (fold_left addSums g a)
    = fold_left (fun acc c' => (acc + f c')%float) g (proj a).
Proof.
  intros Hstep g. induction g as [|c rest IH]; intros a; simpl; [reflexivity|].
  now rewrite IH, Hstep.
Qed.

Lemma groupSums_fields g a :
  groupSums g = Some a ->
  lat a = sumOf (fun c => latitude c * responseCount c)%float g
  /\ lng a = sumOf (fun c => longitude c * responseCount c)%float g
  /\ sum_nps a = sumOf (fun c => npsValue c * responseCount c)%float g
  /\ sum_csat a = sumOf (fun c => csatValue c * responseCount c)%float g
  /\ sum_ces a = sumOf (fun c => cesValue c * responseCount c)%float g
  /\ count a = totalCount g.
Proof.
  destruct g as [|c rest]; simpl; [discriminate|]. intros [= <-].
  unfold totalCount, sumOf.
  repeat split;
    match goal with
    | |- ?p (fold_left addSums _ _) = fold_left (fun acc c' => (acc + @?f c')%float) _ _ =>
        rewrite (fold_addSums_field p f) by reflexivity; reflexivity
    end.
Qed.

Lemma aggregateByCountry_inv cities agg :
  In agg (aggregateByCountry cities) ->
  exists a,
    groupSums (group countryKey (agg_name agg) cities) = Some a
    /\ agg = countryAggregate (agg_name agg, a).
Proof.
  unfold aggregateByCountry. rewrite in_map_iff. intros [[k a] [<- Hin]].
  exists a. split; [|reflexivity]. now apply entries_groupSums.
Qed.

Lemma aggregateByCountry_intro cities k a :
  groupSums (group countryKey k cities) = Some a ->
  In (countryAggregate (k, a)) (aggregateByCountry cities).
Proof.
  intros H. unfold aggregateByCountry. apply in_map.
  now apply entries_groupSums.
Qed.

Lemma aggregateByState_inv cities country' agg :
  In agg (aggregateByState cities country') ->
  exists a,
    groupSums (group stateKey (agg_name agg) (filter (inCountry country') cities))
    = Some a
    /\ agg = stateAggregate country' (agg_name agg, a).
Proof.
  unfold aggregateByState. rewrite in_map_iff. intros [[k a] [<- Hin]].
  exists a. split; [|reflexivity]. now apply entries_groupSums.
Qed.

Lemma aggregateByState_intro cities country' k a :
  groupSums (group stateKey k (filter (inCountry country') cities)) = Some a ->
  In (stateAggregate country' (k, a)) (aggregateByState cities country').
Proof.
  intros H. unfold aggregateByState. apply in_map.
  now apply entries_groupSums.
Qed.

Lemma averages_means agg a g :
  averages agg a -> groupSums g = Some a ->
  meansOf agg g /\ agg_responseCount agg = totalCount g.
Proof.
  intros (H1 & H2 & H3 & H4 & H5 & H6) Hg.
  destruct (groupSums_fields g a Hg) as (F1 & F2 & F3 & F4 & F5 & F6).
  unfold meansOf, weightedMean.
  rewrite H1, H2, H3, H4, H5, H6, F1, F2, F3, F4, F5, F6. tauto.
Qed.

Lemma countryAggregate_averages k a : averages (countryAggregate (k, a)) a.
Proof. unfold averages; simpl; tauto. Qed.

Lemma stateAggregate_averages c k a : averages (stateAggregate c (k, a)) a.
Proof. unfold averages; simpl; tauto. Qed.

Lemma groupSums_nonempty g : g <> [] -> exists a, groupSums g = Some a.
Proof. destruct g; [congruence | simpl; eauto]. Qed.
(* ================================================================= *)
(** ** Properties of the metric value model *)

Lemma safeMetricValue_number (v : float) :
  PrimFloat.is_nan v = false -> safeMetricValue (JS.Num v) = v.
Proof.
  intros H. unfold safeMetricValue, JS.isNaN. simpl. now rewrite H.
Qed.

Lemma safeMetricValue_nan : safeMetricValue (JS.Num nan) = 0%float.
Proof. reflexivity. Qed.

(** C6. [getColor] is a total function of the metric key and the value; on
    every number (a value that is not NaN) it returns the fixed colour of the
    band the thresholds give: NPS at least 50 good, at least 0 neutral, else
    bad; CSAT at least 80 good, at least 60 neutral, else bad; CES below 3
    good, at most 5 neutral, else bad; the band of a known metric is one of
    good, neutral and bad, and an unknown metric key gives the gray band.
    The boundaries fall as documented: NPS 50 is good, CSAT 60 is neutral. *)
Theorem getColor_classifies (metric : string) (value : float) :
  PrimFloat.is_nan value = false ->
  getColor metric value = band_color (classify metric value)
  /\ (if knownMetric metric
      then In (classify metric value) [Good; Neutral; Bad]
      else getColor metric value = "#6b7280")
  /\ getColor "nps" 50 = band_color Good
  /\ getColor "csat" 60 = band_color Neutral.
Proof.
  intros Hnan.
  assert (Hcol : getColor metric value = band_color (classify metric value)).
  { unfold getColor, classify. rewrite (safeMetricValue_number _ Hnan).
    repeat match goal with |- context [if ?b then _ else _] => destruct b end;
      reflexivity. }
  split; [exact Hcol|]. split; [|split; reflexivity].
  rewrite Hcol. unfold knownMetric, classify.
  destruct (metric =? "nps"), (metric =? "csat"), (metric =? "ces"); simpl;
    repeat match goal with |- context [if ?b then _ else _] => destruct b end;
    simpl; auto.
Qed.

Lemma getColor_classifies_witness :
  getColor "ces" 5 = band_color (classify "ces" 5)
  /\ In (classify "ces" 5) [Good; Neutral; Bad]
  /\ getColor "nps" 50 = band_color Good
  /\ getColor "csat" 60 = band_color Neutral.
Proof. apply (getColor_classifies "ces" 5). reflexivity. Defined.

(** C10. A NaN value is coerced to 0 before classification: for every metric
    key [getColor m NaN = getColor m 0]; a NaN NPS is neutral, a NaN CSAT is
    bad and a NaN CES is good. *)
Theorem getColor_nan (metric : string) :
  getColor metric nan = getColor metric 0
  /\ getColor "nps" nan = band_color Neutral
  /\ getColor "csat" nan = band_color Bad
  /\ getColor "ces" nan = band_color Good.
Proof. repeat split; reflexivity. Qed.

Lemma totalCount_positive_nonempty g :
  JS.lt 0 (totalCount g) = true -> g <> [].
Proof. destruct g; [discriminate | discriminate]. Qed.

Lemma npsValue_valueOr (c : SurveyCity) : npsValue c = valueOr 0 (nps c).
Proof.
  unfold npsValue, valueOr, JS.isNaN. destruct (nps c) as [|n]; reflexivity.
Qed.

Lemma orDefault_valueOr (v : JS.value) (d : float) :
  orDefault v d = valueOr d v.
Proof.
  unfold orDefault, valueOr, JS.isNaN_value, JS.isNaN.
  destruct v as [|n]; simpl; [reflexivity|].
  destruct (PrimFloat.is_nan n); reflexivity.
Qed.

Lemma stateKey_stateOrCountry (r : SurveyCity) : stateKey r = stateOrCountry r.
Proof.
  unfold stateKey, stateOrCountry, JS.or_else, JS.truthy.
  destruct (state r =? ""); reflexivity.
Qed.

Lemma group_country k cities :
  group countryKey k cities = recordsOfCountry k cities.
Proof. reflexivity. Qed.

Lemma filter_state_country c k cities :
  filter (fun r => stateKey r =? k) (filter (inCountry c) cities)
  = recordsOfState c k cities.
Proof.
  unfold recordsOfState, inCountry.
  induction cities as [|r rest IH]; simpl; [reflexivity|].
  rewrite <- IH, <- stateKey_stateOrCountry.
  destruct (country r =? c); simpl; [|reflexivity].
  destruct (stateKey r =? k); reflexivity.
Qed.

Lemma sumOf_ext (f f' : SurveyCity -> float) g :
  (forall r, f r = f' r) -> sumOf f g = sumOf f' g.
Proof.
  intros H. destruct g as [|c rest]; simpl; [reflexivity|]. rewrite (H c).
  generalize (f' c). induction rest as [|c' rest IH]; intros x; simpl;
    [reflexivity|].
  now rewrite (H c'), IH.
Qed.

Lemma weightedMean_ext (f f' : SurveyCity -> float) g :
  (forall r, f r = f' r) -> weightedMean f g = weightedMean f' g.
Proof.
  intros H. unfold weightedMean.
  now rewrite (sumOf_ext (fun c => f c * responseCount c)%float
                         (fun c => f' c * responseCount c)%float g)
    by (intros r; now rewrite H).
Qed.

Lemma meansOf_weightedMeans agg g : meansOf agg g -> weightedMeans agg g.
Proof.
  intros (H1 & H2 & H3 & H4 & H5). unfold weightedMeans.
  rewrite H1, H2, H3, H4, H5. repeat split.
  - apply weightedMean_ext, npsValue_valueOr.
  - apply weightedMean_ext. intros r. apply orDefault_valueOr.
  - apply weightedMean_ext. intros r. apply orDefault_valueOr.
Qed.

(** C1. For every input list and every group of positive total response
    count (the records whose country is the given string in
    [aggregateByCountry]; within the given country, the records whose state,
    or country when the state is empty, is the given key in
    [aggregateByState]), the function returns exactly one aggregate of that
    name, and its latitude, longitude, NPS, CSAT and CES are the
    response-count-weighted means over the group's records (sum of value
    times count, divided by the sum of counts, in the program's binary64
    arithmetic and in input order), a missing or NaN CSAT counting as 50, a
    missing or NaN CES as 3 and a missing or NaN NPS as 0.  The two CA
    records of the scenario, NPS 80 and 40 with 10 responses each, give one
    state aggregate "CA" with NPS 60 and response count 20. *)
Theorem aggregates_are_weighted_means (cities : list SurveyCity) :
  (forall k,
      JS.lt 0 (totalCount (recordsOfCountry k cities)) = true ->
      exists agg,
        In agg (aggregateByCountry cities)
        /\ agg_name agg = k /\ agg_level agg = LCountry
        /\ weightedMeans agg (recordsOfCountry k cities)
        /\ forall agg', In agg' (aggregateByCountry cities) ->
                        agg_name agg' = k -> agg' = agg)
  /\ (forall country' k,
      JS.lt 0 (totalCount (recordsOfState country' k cities)) = true ->
      exists agg,
        In agg (aggregateByState cities country')
        /\ agg_name agg = k /\ agg_level agg = LState
        /\ agg_country agg = Some country' /\ agg_state agg = Some k
        /\ weightedMeans agg (recordsOfState country' k cities)
        /\ forall agg', In agg' (aggregateByState cities country') ->
                        agg_name agg' = k -> agg' = agg)
  /\ (forall r1 r2,
      scenario r1 r2 ->
      exists agg,
        aggregateByState [r1; r2] "USA" = [agg]
        /\ agg_name agg = "CA" /\ agg_level agg = LState
        /\ agg_nps agg = 60%float /\ agg_responseCount agg = 20%float).
Proof.
  split; [|split].
  - intros k Hpos. rewrite <- group_country in *.
    destruct (groupSums_nonempty _ (totalCount_positive_nonempty _ Hpos))
      as [a Ha].
    exists (countryAggregate (k, a)).
    split; [now apply aggregateByCountry_intro|].
    repeat split; try reflexivity;
      try apply meansOf_weightedMeans,
                (averages_means _ a _ (countryAggregate_averages k a) Ha).
    intros agg' Hin Hname.
    destruct (aggregateByCountry_inv _ _ Hin) as [a' [Ha' ->]].
    simpl in Hname. subst k. simpl in Ha'. congruence.
  - intros country' k Hpos. rewrite <- filter_state_country in *.
    change (filter (fun r => stateKey r =? k)
                   (filter (inCountry country') cities))
      with (group stateKey k (filter (inCountry country') cities)) in *.
    destruct (groupSums_nonempty _ (totalCount_positive_nonempty _ Hpos))
      as [a Ha].
    exists (stateAggregate country' (k, a)).
    split; [now apply aggregateByState_intro|].
    repeat split; try reflexivity;
      try apply meansOf_weightedMeans,
                (averages_means _ a _ (stateAggregate_averages country' k a) Ha).
    intros agg' Hin Hname.
    destruct (aggregateByState_inv _ _ _ Hin) as [a' [Ha' ->]].
    simpl in Hname. subst k. simpl in Ha'. congruence.
  - intros [c1 s1 k1 la1 lo1 n1 cs1 ce1 rc1 d1] [c2 s2 k2 la2 lo2 n2 cs2 ce2 rc2 d2].
    unfold scenario; simpl.
    intros (-> & -> & -> & -> & -> & -> & -> & ->).
    eexists. split; [reflexivity|]. repeat split; reflexivity.
Qed.

(** On [mixedData] the CA group of the USA is the Los Angeles and San Diego
    records only; San Diego has no NPS and a NaN CES, Los Angeles no CSAT and
    no CES, and the means come out as (80 + 0) / 2, (50 + 90) / 2 and
    (3 + 3) / 2. *)
Lemma aggregates_are_weighted_means_witness :
  exists agg,
    In agg (aggregateByState mixedData "USA")
    /\ agg_name agg = "CA"
    /\ weightedMeans agg (recordsOfState "USA" "CA" mixedData)
    /\ map city (recordsOfState "USA" "CA" mixedData)
       = ["Los Angeles"; "San Diego"]
    /\ agg_latitude agg = 33%float
    /\ agg_nps agg = 40%float
    /\ agg_csat agg = 70%float
    /\ agg_ces agg = 3%float.
Proof.
  destruct (proj1 (proj2 (aggregates_are_weighted_means mixedData))
                  "USA" "CA" eq_refl)
    as [agg (Hin & Hname & _ & _ & _ & Hmeans & _)].
  exists agg. split; [exact Hin|]. split; [exact Hname|].
  split; [exact Hmeans|]. split; [reflexivity|].
  destruct Hmeans as (Hlat & _ & Hnps & Hcsat & Hces).
  rewrite Hlat, Hnps, Hcsat, Hces. repeat split; reflexivity.
Defined.

(** C8. Aggregation preserves weight: the response count of every aggregate
    that [aggregateByCountry] or [aggregateByState] returns is the sum of the
    response counts of the records of its group, which are the records of
    the input with the aggregate's name as key (within the given country for
    [aggregateByState]), and there is at least one. *)
Theorem responseCount_is_group_total (cities : list SurveyCity) :
  (forall agg,
      In agg (aggregateByCountry cities) ->
      group countryKey (agg_name agg) cities <> []
      /\ agg_responseCount agg
         = totalCount (group countryKey (agg_name agg) cities))
  /\ (forall country' agg,
      In agg (aggregateByState cities country') ->
      group stateKey (agg_name agg) (filter (inCountry country') cities) <> []
      /\ agg_responseCount agg
         = totalCount
             (group stateKey (agg_name agg) (filter (inCountry country') cities))).
Proof.
  split.
  - intros agg Hin.
    destruct (aggregateByCountry_inv _ _ Hin) as [a [Ha Heq]].
    split; [intros E; rewrite E in Ha; discriminate|].
    rewrite Heq at 1.
    apply (averages_means _ a _ (countryAggregate_averages _ a) Ha).
  - intros country' agg Hin.
    destruct (aggregateByState_inv _ _ _ Hin) as [a [Ha Heq]].
    split; [intros E; rewrite E in Ha; discriminate|].
    rewrite Heq at 1.
    apply (averages_means _ a _ (stateAggregate_averages _ _ a) Ha).
Qed.

Lemma responseCount_is_group_total_witness :
  group countryKey "USA" [scenarioRecord 80; scenarioRecord 40] <> []
  /\ agg_responseCount
       (countryAggregate ("USA", addSums (firstSums (scenarioRecord 80))
                                         (scenarioRecord 40)))
     = totalCount (group countryKey "USA" [scenarioRecord 80; scenarioRecord 40]).
Proof.
  apply (proj1 (responseCount_is_group_total
                  [scenarioRecord 80; scenarioRecord 40])
               (countryAggregate ("USA", addSums (firstSums (scenarioRecord 80))
                                                 (scenarioRecord 40)))).
  left. reflexivity.
Defined.

(* ================================================================= *)
(** ** Groups without responses *)

Lemma float_of_spec (x : float) (s : spec_float) :
  Prim2SF x = s -> x = SF2Prim s.
Proof. intros <-. symmetry. apply SF2Prim_Prim2SF. Qed.

(** Any number times a zero is a zero or NaN. *)
Lemma mul_zero_zeroish (x w : float) : zeroCount w -> zeroish (x * w)%float.
Proof.
  intros Hw.
  assert (H : exists b, Prim2SF w = S754_zero b)
    by (destruct Hw as [-> | ->]; eexists; reflexivity).
  destruct H as [b Hb].
  pose proof (FloatAxioms.mul_spec x w) as Hm. rewrite Hb in Hm.
  unfold zeroish.
  destruct (Prim2SF x) as [s | s | | s m e]; simpl in Hm;
    apply float_of_spec in Hm; rewrite Hm;
    repeat match goal with b : bool |- _ => destruct b end; simpl; auto.
Qed.

Lemma add_zeroish (a b : float) : zeroish a -> zeroish b -> zeroish (a + b)%float.
Proof.
  unfold zeroish.
  intros [-> | [-> | ->]] [-> | [-> | ->]]; vm_compute; auto.
Qed.

Lemma add_zeroCount (a b : float) :
  zeroCount a -> zeroCount b -> zeroCount (a + b)%float.
Proof.
  unfold zeroCount. intros [-> | ->] [-> | ->]; vm_compute; auto.
Qed.

Lemma div_zeroish (a w : float) : zeroish a -> zeroCount w -> (a / w)%float = nan.
Proof.
  unfold zeroish, zeroCount.
  intros [-> | [-> | ->]] [-> | ->]; reflexivity.
Qed.

Lemma sumOf_invariant (P : float -> Prop) (f : SurveyCity -> float) g :
  P 0%float ->
  (forall a b, P a -> P b -> P (a + b)%float) ->
  (forall c, In c g -> P (f c)) ->
  P (sumOf f g).
Proof.
  intros H0 Hadd Hf. destruct g as [|c rest]; simpl; [assumption|].
  assert (Hc : P (f c)) by (apply Hf; now left).
  assert (Hrest : forall c', In c' rest -> P (f c'))
    by (intros; apply Hf; now right).
  clear Hf. revert Hc Hrest. generalize (f c).
  induction rest as [|c' rest IH]; intros x Hx Hrest; simpl; [assumption|].
  apply IH.
  - apply Hadd; [assumption | apply Hrest; now left].
  - intros; apply Hrest; now right.
Qed.

Lemma averages_without_responses agg a g :
  averages agg a -> groupSums g = Some a ->
  (forall c, In c g -> zeroCount (responseCount c)) ->
  undefinedMetrics agg /\ zeroCount (agg_responseCount agg).
Proof.
  intros (H1 & H2 & H3 & H4 & H5 & H6) Hg Hzero.
  destruct (groupSums_fields g a Hg) as (F1 & F2 & F3 & F4 & F5 & F6).
  assert (Hcount : zeroCount (count a)).
  { rewrite F6. unfold totalCount. apply (sumOf_invariant zeroCount);
      [now left | apply add_zeroCount | assumption]. }
  assert (Hsum : forall f,
             zeroish (sumOf (fun c => f c * responseCount c)%float g)).
  { intros f. apply (sumOf_invariant zeroish);
      [now left | apply add_zeroish |].
    intros c Hc. apply mul_zero_zeroish. now apply Hzero. }
  unfold undefinedMetrics.
  rewrite H1, H2, H3, H4, H5, H6, F1, F2, F3, F4, F5.
  repeat split; try (apply div_zeroish; [apply Hsum | assumption]).
  assumption.
Qed.

(** C2, as the claim states it, fails: the one record without responses gives
    an aggregate whose NPS, CSAT and CES are NaN, not the simple means 80, 90
    and 2 of its group. *)
Lemma zero_weight_is_not_safe :
  ~ (forall agg,
        In agg (aggregateByCountry [silentRecord]) ->
        zeroWeightSafe agg (group countryKey (agg_name agg) [silentRecord])).
Proof.
  intros H.
  specialize (H (countryAggregate ("India", firstSums silentRecord))
                (or_introl eq_refl)).
  destruct H as (_ & _ & _ & Hnan & _). vm_compute in Hnan. discriminate.
Qed.

(** C2, amended.  The aggregation divides by the total response count
    without a guard: for every group whose records all have response count
    zero, the aggregate that [aggregateByCountry] or [aggregateByState]
    returns has latitude, longitude, NPS, CSAT and CES all NaN (zero or NaN
    divided by zero) and a zero response count. *)
Theorem zero_weight_gives_nan (cities : list SurveyCity) :
  (forall agg,
      In agg (aggregateByCountry cities) ->
      (forall c, In c (group countryKey (agg_name agg) cities) ->
                 zeroCount (responseCount c)) ->
      undefinedMetrics agg /\ zeroCount (agg_responseCount agg))
  /\ (forall country' agg,
      In agg (aggregateByState cities country') ->
      (forall c,
          In c (group stateKey (agg_name agg) (filter (inCountry country') cities)) ->
          zeroCount (responseCount c)) ->
      undefinedMetrics agg /\ zeroCount (agg_responseCount agg)).
Proof.
  split.
  - intros agg Hin Hzero.
    destruct (aggregateByCountry_inv _ _ Hin) as [a [Ha Heq]].
    assert (Hav : averages agg a)
      by (rewrite Heq; apply countryAggregate_averages).
    exact (averages_without_responses agg a _ Hav Ha Hzero).
  - intros country' agg Hin Hzero.
    destruct (aggregateByState_inv _ _ _ Hin) as [a [Ha Heq]].
    assert (Hav : averages agg a)
      by (rewrite Heq; apply stateAggregate_averages).
    exact (averages_without_responses agg a _ Hav Ha Hzero).
Qed.

Lemma zero_weight_gives_nan_witness :
  undefinedMetrics (countryAggregate ("India", firstSums silentRecord))
  /\ zeroCount (agg_responseCount
                  (countryAggregate ("India", firstSums silentRecord))).
Proof.
  apply (proj1 (zero_weight_gives_nan [silentRecord])
               (countryAggregate ("India", firstSums silentRecord))).
  - left. reflexivity.
  - intros c [<- | []]. left. reflexivity.
Defined.

(* ================================================================= *)
(** ** The drill-down view state *)

Lemma nonEmpty_selected o s : selected o s -> JS.nonEmpty o = Some s.
Proof.
  intros [-> Hs]. simpl. unfold JS.truthy.
  apply String.eqb_neq in Hs. now rewrite Hs.
Qed.

Lemma nonEmpty_unselected o : unselected o -> JS.nonEmpty o = None.
Proof. intros [-> | ->]; reflexivity. Qed.

Lemma currentMapData_city_all (st : ViewState) :
  drillLevel st = LCity -> unselected (selectedCountry st) ->
  currentMapData st = rawCities (surveyData st).
Proof.
  unfold currentMapData. intros -> Hc. now rewrite (nonEmpty_unselected _ Hc).
Qed.

(** C3. The render set is determined by the drill level and the selections
    (a selection being a string that is neither null nor empty): at level
    country, the country aggregates of all records; at level state with a
    country selected, the state aggregates of that country; at level city,
    all raw records when no country is selected, else the raw records whose
    country is the selected one, and when a state is selected as well, of
    these the records whose state (or country, when the state is empty) is
    the selected state, unaggregated and in input order; at level state with
    no country selected, nothing. *)
Theorem currentMapData_by_level (st : ViewState) :
  (drillLevel st = LCountry ->
   currentMapData st = aggregates (aggregateByCountry (surveyData st)))
  /\ (forall c,
      drillLevel st = LState -> selected (selectedCountry st) c ->
      currentMapData st = aggregates (aggregateByState (surveyData st) c))
  /\ (drillLevel st = LCity -> unselected (selectedCountry st) ->
      currentMapData st = rawCities (surveyData st))
  /\ (forall c,
      drillLevel st = LCity -> selected (selectedCountry st) c ->
      unselected (selectedState st) ->
      currentMapData st = rawCities (recordsOfCountry c (surveyData st)))
  /\ (forall c s,
      drillLevel st = LCity -> selected (selectedCountry st) c ->
      selected (selectedState st) s ->
      currentMapData st = rawCities (recordsOfState c s (surveyData st)))
  /\ (drillLevel st = LState -> unselected (selectedCountry st) ->
      currentMapData st = []).
Proof.
  repeat split; unfold currentMapData.
  - intros ->. reflexivity.
  - intros c -> Hc. now rewrite (nonEmpty_selected _ _ Hc).
  - apply currentMapData_city_all.
  - intros c -> Hc Hs.
    now rewrite (nonEmpty_selected _ _ Hc), (nonEmpty_unselected _ Hs).
  - intros c s -> Hc Hs.
    rewrite (nonEmpty_selected _ _ Hc), (nonEmpty_selected _ _ Hs). simpl.
    f_equal. apply filter_state_country.
  - intros -> Hc. now rewrite (nonEmpty_unselected _ Hc).
Qed.

(** On [mixedData], which has USA records in CA, in NY and without a state,
    and a record of India: the city view of USA / CA is the two CA records,
    the city view of USA with the state "USA" is the record without a state,
    and the city view of USA alone is the four USA records. *)
Lemma currentMapData_by_level_witness :
  currentMapData (mixedView LCity (Some "USA") (Some "CA"))
  = rawCities (recordsOfState "USA" "CA" mixedData)
  /\ map city (recordsOfState "USA" "CA" mixedData)
     = ["Los Angeles"; "San Diego"]
  /\ currentMapData (mixedView LCity (Some "USA") (Some "USA"))
     = rawCities (recordsOfState "USA" "USA" mixedData)
  /\ map city (recordsOfState "USA" "USA" mixedData) = ["Washington"]
  /\ currentMapData (mixedView LCity (Some "USA") None)
     = rawCities (recordsOfCountry "USA" mixedData)
  /\ map city (recordsOfCountry "USA" mixedData)
     = ["Los Angeles"; "San Diego"; "New York"; "Washington"].
Proof.
  split; [|split; [reflexivity|]].
  - apply (proj1 (proj2 (proj2 (proj2 (proj2
             (currentMapData_by_level (mixedView LCity (Some "USA") (Some "CA")))))))
             "USA" "CA").
    + reflexivity.
    + split; [reflexivity | discriminate].
    + split; [reflexivity | discriminate].
  - split; [|split; [reflexivity|]].
    + apply (proj1 (proj2 (proj2 (proj2 (proj2
               (currentMapData_by_level
                  (mixedView LCity (Some "USA") (Some "USA")))))))
               "USA" "USA").
      * reflexivity.
      * split; [reflexivity | discriminate].
      * split; [reflexivity | discriminate].
    + split; [|reflexivity].
      apply (proj1 (proj2 (proj2 (proj2
               (currentMapData_by_level (mixedView LCity (Some "USA") None)))))
               "USA").
      * reflexivity.
      * split; [reflexivity | discriminate].
      * left. reflexivity.
Defined.

(** C4, as the claim states it, fails: from the initial state, where no
    country is selected, [onStateSelect] moves the drill level from country
    to city, and with data loaded the render set is then every raw record,
    not an empty list. *)
Lemma onStateSelect_changes_level :
  selectedCountry initialState = None
  /\ drillLevel (onStateSelect "CA" initialState) <> drillLevel initialState
  /\ selectedCountry (sampleView LCountry None None) = None
  /\ onStateSelect "CA" (sampleView LCountry None None)
     <> sampleView LCountry None None
  /\ currentMapData (onStateSelect "CA" (sampleView LCountry None None)) <> [].
Proof. repeat split; discriminate. Qed.

(** C4, amended.  [onStateSelect] has no guard on the selected country: in
    every state it succeeds, sets the selected state to its argument and the
    drill level to city, and changes nothing else; when no country is
    selected the render set is then all raw records. *)
Theorem onStateSelect_unguarded (s : string) (st : ViewState) :
  unselected (selectedCountry st) ->
  onStateSelect s st
  = mkView (selectedMetric st) (surveyData st) (loading st) (error st)
           (displayType st) LCity (selectedCountry st) (Some s)
           (baseLayerKey st)
  /\ currentMapData (onStateSelect s st) = rawCities (surveyData st).
Proof.
  intros Hc. split; [reflexivity|].
  apply (currentMapData_city_all (onStateSelect s st)); [reflexivity | exact Hc].
Qed.

Lemma onStateSelect_unguarded_witness :
  onStateSelect "CA" (sampleView LCountry None None)
  = sampleView LCity None (Some "CA")
  /\ currentMapData (onStateSelect "CA" (sampleView LCountry None None))
     = rawCities sampleData.
Proof.
  apply (onStateSelect_unguarded "CA" (sampleView LCountry None None)).
  left. reflexivity.
Defined.

(** C5. For every country name [c] and every state of the view,
    [onCountrySelect c] sets the drill level to state, the selected country
    to [c] and clears the selected state; [goBackFromState] after it gives
    drill level country with both selections cleared and every other signal
    as it was, and from the initial state the result is the initial state. *)
Theorem select_country_then_back (c : string) (st : ViewState) :
  onCountrySelect c st
  = mkView (selectedMetric st) (surveyData st) (loading st) (error st)
           (displayType st) LState (Some c) None (baseLayerKey st)
  /\ goBackFromState (onCountrySelect c st)
     = mkView (selectedMetric st) (surveyData st) (loading st) (error st)
              (displayType st) LCountry None None (baseLayerKey st)
  /\ goBackFromState (onCountrySelect c initialState) = initialState.
Proof. repeat split; reflexivity. Qed.

(* ================================================================= *)
(** ** The country-name lookup *)

(** Outside the keys that every object inherits, the lookup is the table with
    the identity as fallback. *)
Lemma geoNameForCountry_table (s : string) :
  existsb (String.eqb s) Geo.Object_prototype = false ->
  Geo.geoNameForCountry s
  = Geo.Own (match Geo.own Geo.COUNTRY_NAME_TO_GEO s with
             | Some g => g
             | None => s
             end).
Proof.
  intros H. unfold Geo.geoNameForCountry, Geo.get. rewrite H.
  destruct (Geo.own Geo.COUNTRY_NAME_TO_GEO s); reflexivity.
Qed.

Lemma geoNameForCountry_examples :
  Geo.geoNameForCountry "USA" = Geo.Own "United States of America"
  /\ Geo.geoNameForCountry "Freedonia" = Geo.Own "Freedonia".
Proof. split; reflexivity. Qed.

(** C9, at the failing input.  "constructor" is not a key of the table, yet
    the lookup does not fall back to it: the property read finds the member
    that the table object inherits, and [??] keeps it, so the result is not
    the string "constructor" (nor any string). *)
Theorem geoNameForCountry_inherited_key :
  Geo.inTable "constructor" = false
  /\ Geo.geoNameForCountry "constructor" = Geo.Inherited "constructor"
  /\ Geo.geoNameForCountry "constructor" <> Geo.Own "constructor".
Proof. repeat split; try reflexivity; discriminate. Qed.

(* ================================================================= *)
(** ** Formatting a metric *)

Lemma finite_not_nan (n : float) neg m e :
  Prim2SF n = S754_finite neg m e -> PrimFloat.is_nan n = false.
Proof.
  intros H. unfold PrimFloat.is_nan. rewrite FloatAxioms.eqb_spec, H.
  unfold SFeqb, SFcompare.
  destruct neg; now rewrite Z.compare_refl, Pos.compare_cont_refl.
Qed.

Lemma nearest_is_nearest (r : Q) :
  (inject_Z (JS.nearest r) - (1 # 2) <= r < inject_Z (JS.nearest r) + (1 # 2))%Q.
Proof.
  unfold JS.nearest.
  pose proof (Qfloor_le (r + (1 # 2))) as Hle.
  pose proof (Qlt_floor (r + (1 # 2))) as Hlt.
  rewrite inject_Z_plus in Hlt. change (inject_Z 1) with 1%Q in Hlt.
  revert Hle Hlt. generalize (inject_Z (Qfloor (r + (1 # 2)))).
  intros z Hle Hlt. split; lra.
Qed.

(** The text of numbers on sample values, as a JavaScript engine prints
    them. *)
Lemma number_text_examples :
  map JS.toString
      [1e21; 123456789012345680000; 1152921504606846976; 9007199254740992;
       100; 72.6; -1.5; 0.1; 0.000001; 1e-7; 0.30000000000000004]%float
  = ["1e+21"; "123456789012345680000"; "1152921504606847000";
     "9007199254740992"; "100"; "72.6"; "-1.5"; "0.1"; "0.000001"; "1e-7";
     "0.30000000000000004"]
  /\ map JS.toFixed1 [0.05; 0.25; 1.45; -0.01; 999.96; 1e21; 0; -0]%float
     = ["0.1"; "0.3"; "1.4"; "-0.0"; "1000.0"; "1e+21"; "0.0"; "0.0"]
  /\ map JS.Math_round [2.5; -2.5; 0.4; -0.4; 0.49999999999999994]%float
     = [3; -2; 0; -0; 0]%float.
Proof. vm_compute. repeat split; reflexivity. Qed.

(** On the conventional range of the integer metrics, -100 to 100, the text
    of a rounded value is its sign and decimal digits. *)
Lemma rounded_text_in_range :
  forallb
    (fun k =>
       (JS.toString (JS.ofInteger false (Z.of_nat k)) =? JS.digits (Z.of_nat k))
       && (JS.toString (JS.ofInteger true (- Z.of_nat (S k)))
           =? "-" ++ JS.digits (Z.of_nat (S k))))
    (seq 0 101)
  = true.
Proof. vm_compute. reflexivity. Qed.

(** C7, as the claim states it, fails: positive infinity is a number that is
    not finite, and it is formatted as "Infinity", not as the placeholder. *)
Lemma formatMetricValue_infinity :
  Prim2SF infinity = S754_infinity false
  /\ formatMetricValue (JS.Num infinity) "ces" = "Infinity"
  /\ formatMetricValue (JS.Num infinity) "ces" <> "—".
Proof. repeat split; try reflexivity; discriminate. Qed.

(** C7, amended.  [formatMetricValue] returns the placeholder "—" when the
    raw value is missing or NaN; on every other number [n] it returns, for
    the metric 'ces', [n.toFixed(1)], and for any other metric key,
    [String(Math.round(n))].  For a finite [n] of magnitude below 10^21 the
    'ces' text is the sign followed by the one-decimal digits of the nearest
    number of tenths to the magnitude; under the other keys a finite [n] that
    is not an integer is printed as the nearest integer to it (the larger of
    two equally near); the infinities are formatted as
    "Infinity" and "-Infinity" under every metric.  In particular a missing
    CES gives "—", 3.14159 as CES gives "3.1" and 72.6 as NPS gives "73". *)
Theorem formatMetricValue_cases (value : JS.value) (metric : string) :
  (JS.isNumber value = false \/ JS.isNaN_value value = true ->
   formatMetricValue value metric = "—")
  /\ (forall n,
      value = JS.Num n -> PrimFloat.is_nan n = false ->
      formatMetricValue value "ces" = JS.toFixed1 n
      /\ (metric <> "ces" ->
          formatMetricValue value metric = JS.toString (JS.Math_round n)))
  /\ (forall n neg m e,
      value = JS.Num n -> Prim2SF n = S754_finite neg m e ->
      (JS.real m e < 10 ^ 21)%Q ->
      exists k : Z,
        (inject_Z k - (1 # 2) <= 10 * JS.real m e < inject_Z k + (1 # 2))%Q
        /\ formatMetricValue value "ces"
           = JS.signed neg (JS.digits (k / 10) ++ "." ++ JS.digits (k mod 10)))
  /\ (forall n neg m e,
      value = JS.Num n -> Prim2SF n = S754_finite neg m e ->
      metric <> "ces" ->
      if (0 <=? e)%Z then formatMetricValue value metric = JS.toString n
      else
        exists k : Z,
          (inject_Z k - (1 # 2) <= JS.signedReal neg m e
           < inject_Z k + (1 # 2))%Q
          /\ formatMetricValue value metric = JS.toString (JS.ofInteger neg k))
  /\ formatMetricValue (JS.Num infinity) metric = "Infinity"
  /\ formatMetricValue (JS.Num neg_infinity) metric = "-Infinity"
  /\ formatMetricValue JS.Undefined "ces" = "—"
  /\ formatMetricValue (JS.Num 3.14159) "ces" = "3.1"
  /\ formatMetricValue (JS.Num 72.6) "nps" = "73".
Proof.
  split; [|split; [|split; [|split; [|split; [|split]]]]].
  - unfold formatMetricValue. intros [H | H].
    + now rewrite H.
    + rewrite H. now rewrite orb_true_r.
  - intros n -> Hn. unfold formatMetricValue.
    rewrite (safeMetricValue_number _ Hn). simpl. unfold JS.isNaN. rewrite Hn.
    split; [reflexivity|].
    intros Hm. apply String.eqb_neq in Hm. now rewrite Hm.
  - intros n neg m e -> Hsf Hlt.
    pose proof (finite_not_nan _ _ _ _ Hsf) as Hn.
    exists (JS.nearest (10 * JS.real m e)). split; [apply nearest_is_nearest|].
    unfold formatMetricValue.
    rewrite (safeMetricValue_number _ Hn). simpl. unfold JS.isNaN. rewrite Hn.
    simpl. unfold JS.toFixed1. rewrite Hsf.
    destruct (Qle_bool (10 ^ 21) (JS.real m e)) eqn:E; [|reflexivity].
    apply Qle_bool_iff in E. exfalso. revert E. now apply Qlt_not_le.
  - intros n neg m e -> Hsf Hm.
    pose proof (finite_not_nan _ _ _ _ Hsf) as Hn.
    apply String.eqb_neq in Hm.
    assert (Hfmt : formatMetricValue (JS.Num n) metric
                   = JS.toString (JS.Math_round n)).
    { unfold formatMetricValue.
      rewrite (safeMetricValue_number _ Hn). simpl. unfold JS.isNaN.
      now rewrite Hn, Hm. }
    rewrite Hfmt. unfold JS.Math_round. rewrite Hsf.
    destruct (0 <=? e)%Z; [reflexivity|].
    exists (JS.nearest (JS.signedReal neg m e)).
    split; [apply nearest_is_nearest | reflexivity].
  - unfold formatMetricValue. destruct (metric =? "ces"); reflexivity.
  - unfold formatMetricValue. destruct (metric =? "ces"); reflexivity.
  - repeat split; vm_compute; reflexivity.
Qed.

Lemma formatMetricValue_cases_witness :
  exists k : Z,
    (inject_Z k - (1 # 2)
     <= 10 * JS.real 7074231776675438 (-51) < inject_Z k + (1 # 2))%Q
    /\ formatMetricValue (JS.Num 3.14159) "ces"
       = JS.signed false (JS.digits (k / 10) ++ "." ++ JS.digits (k mod 10)).
Proof.
  apply (proj1 (proj2 (proj2 (formatMetricValue_cases (JS.Num 3.14159) "ces")))
               3.14159%float false 7074231776675438%positive (-51)%Z).
  - reflexivity.
  - reflexivity.
  - reflexivity.
Defined.

(** The rounding of the integer metrics on sample values: halves go up,
    towards positive infinity, and a negative zero prints as "0". *)
Lemma formatMetricValue_rounding :
  map (fun n => formatMetricValue (JS.Num n) "csat")
      [72.5; 72.4; -2.5; -2.6; -0.4; 0; 100]%float
  = ["73"; "72"; "-2"; "-3"; "0"; "0"; "100"].
Proof. vm_compute. reflexivity. Qed.

(* ================================================================= *)
(** ** The order of strings, sets and sorted arrays *)

Lemma compareUnits_refl (a : list N) : JS.compareUnits a a = Eq.
Proof.
  induction a as [|x a IH]; simpl; [reflexivity|]. now rewrite N.compare_refl.
Qed.

Lemma compareUnits_antisym (a : list N) : forall b,
  JS.compareUnits b a = CompOpp (JS.compareUnits a b).
Proof.
  induction a as [|x a IH]; intros [|y b]; simpl; try reflexivity.
  rewrite (N.compare_antisym x y).
  destruct (x ?= y)%N; simpl; [apply IH | reflexivity | reflexivity].
Qed.

Lemma compareUnits_eq (a : list N) : forall b,
  JS.compareUnits a b = Eq -> a = b.
Proof.
  induction a as [|x a IH]; intros [|y b]; simpl; try discriminate;
    [reflexivity|].
  destruct (x ?= y)%N eqn:E; try discriminate.
  apply N.compare_eq in E. intros H. f_equal; [assumption | now apply IH].
Qed.

Lemma compareUnits_lt_trans (a : list N) : forall b c,
  JS.compareUnits a b = Lt -> JS.compareUnits b c = Lt ->
  JS.compareUnits a c = Lt.
Proof.
  induction a as [|x a IH]; intros [|y b] [|z c]; simpl;
    try discriminate; try reflexivity.
  intros H1 H2.
  destruct (x ?= y)%N eqn:Exy; try discriminate;
    destruct (y ?= z)%N eqn:Eyz; try discriminate.
  - apply N.compare_eq in Exy, Eyz. subst. rewrite N.compare_refl.
    now apply (IH b).
  - apply N.compare_eq in Exy. subst. now rewrite Eyz.
  - apply N.compare_eq in Eyz. subst. now rewrite Exy.
  - rewrite N.compare_lt_iff in *.
    now rewrite (proj2 (N.compare_lt_iff x z) (N.lt_trans _ _ _ Exy Eyz)).
Qed.

Lemma string_leb_trans (a b c : string) :
  JS.leb a b = true -> JS.leb b c = true -> JS.leb a c = true.
Proof.
  unfold JS.leb, JS.ltb.
  rewrite (compareUnits_antisym (JS.codeUnits a) (JS.codeUnits b)).
  rewrite (compareUnits_antisym (JS.codeUnits b) (JS.codeUnits c)).
  rewrite (compareUnits_antisym (JS.codeUnits a) (JS.codeUnits c)).
  intros H1 H2.
  destruct (JS.compareUnits (JS.codeUnits a) (JS.codeUnits b)) eqn:Eab;
    try discriminate;
    destruct (JS.compareUnits (JS.codeUnits b) (JS.codeUnits c)) eqn:Ebc;
    try discriminate.
  - apply compareUnits_eq in Eab. rewrite Eab. now rewrite Ebc.
  - apply compareUnits_eq in Eab. rewrite Eab. now rewrite Ebc.
  - apply compareUnits_eq in Ebc. rewrite <- Ebc. now rewrite Eab.
  - now rewrite (compareUnits_lt_trans _ _ _ Eab Ebc).
Qed.

Lemma string_leb_refl (a : string) : JS.leb a a = true.
Proof. unfold JS.leb, JS.ltb. now rewrite compareUnits_refl. Qed.

Lemma string_leb_total (a b : string) :
  JS.leb a b = true \/ JS.leb b a = true.
Proof.
  unfold JS.leb, JS.ltb.
  rewrite (compareUnits_antisym (JS.codeUnits a) (JS.codeUnits b)).
  destruct (JS.compareUnits (JS.codeUnits a) (JS.codeUnits b)); simpl; auto.
Qed.

(** [a > b] fails exactly when [a <= b]. *)
Lemma gtb_false_leb (a b : string) :
  JS.gtb a b = false <-> JS.leb a b = true.
Proof.
  unfold JS.leb, JS.gtb. destruct (JS.ltb b a); simpl; split; congruence.
Qed.

Lemma gtb_true_leb (a b : string) :
  JS.gtb a b = true -> JS.leb b a = true.
Proof.
  unfold JS.gtb, JS.leb, JS.ltb.
  rewrite (compareUnits_antisym (JS.codeUnits b) (JS.codeUnits a)).
  destruct (JS.compareUnits (JS.codeUnits b) (JS.codeUnits a));
    simpl; congruence.
Qed.

(** The order is that of the code units, not of the characters: a name that
    starts with U+1F600 (units D83D DE00) sorts before one that starts with
    U+FF5E, and after the ASCII and Latin-1 names. *)
Lemma string_order_examples :
  JS.codeUnits "😀" = [55357%N; 56832%N]
  /\ JS.codeUnits "～" = [65374%N]
  /\ JS.gtb "～" "😀" = true
  /\ JS.sort ["～ land"; "😀 land"; "USA"; "Éire"; "India"]
     = ["India"; "USA"; "Éire"; "😀 land"; "～ land"].
Proof. vm_compute. repeat split; reflexivity. Qed.

Lemma existsb_eqb_In (x : string) (s : list string) :
  existsb (String.eqb x) s = true <-> In x s.
Proof.
  rewrite existsb_exists. split.
  - intros [y [Hy E]]. apply String.eqb_eq in E. now subst.
  - intros H. exists x. split; [assumption | apply String.eqb_refl].
Qed.

Lemma setAdd_In (s : list string) (x y : string) :
  In y (JS.setAdd s x) <-> In y s \/ y = x.
Proof.
  unfold JS.setAdd. destruct (existsb (String.eqb x) s) eqn:E.
  - apply existsb_eqb_In in E. split; [tauto | intros [H | ->]; assumption].
  - rewrite in_app_iff. simpl. intuition.
Qed.

Lemma setAdd_NoDup (s : list string) (x : string) :
  NoDup s -> NoDup (JS.setAdd s x).
Proof.
  intros H. unfold JS.setAdd. destruct (existsb (String.eqb x) s) eqn:E.
  - assumption.
  - apply NoDup_app; [assumption | repeat constructor; simpl; tauto |].
    intros y Hy [<- | []].
    apply existsb_eqb_In in Hy. congruence.
Qed.

Lemma fold_setAdd_In (l : list string) : forall s y,
  In y (fold_left JS.setAdd l s) <-> In y s \/ In y l.
Proof.
  induction l as [|x l IH]; intros s y; simpl; [tauto|].
  rewrite IH, setAdd_In. intuition.
Qed.

Lemma fold_setAdd_NoDup (l : list string) : forall s,
  NoDup s -> NoDup (fold_left JS.setAdd l s).
Proof.
  induction l as [|x l IH]; intros s H; simpl; [assumption|].
  apply IH. now apply setAdd_NoDup.
Qed.

Lemma distinct_In (l : list string) (y : string) :
  In y (JS.distinct l) <-> In y l.
Proof. unfold JS.distinct. rewrite fold_setAdd_In. simpl. tauto. Qed.

Lemma distinct_NoDup (l : list string) : NoDup (JS.distinct l).
Proof. apply fold_setAdd_NoDup. constructor. Qed.

Lemma insert_Permutation (x : string) (l : list string) :
  Permutation (JS.insert x l) (x :: l).
Proof.
  induction l as [|y l IH]; simpl; [reflexivity|].
  destruct (JS.leb x y); [reflexivity|].
  rewrite IH. apply perm_swap.
Qed.

Lemma sort_Permutation (l : list string) : Permutation (JS.sort l) l.
Proof.
  induction l as [|x l IH]; simpl; [reflexivity|].
  rewrite insert_Permutation. now constructor.
Qed.

Lemma insert_sortedByLeb (x : string) (l : list string) :
  sortedByLeb l -> sortedByLeb (JS.insert x l).
Proof.
  unfold sortedByLeb. induction 1 as [|y l Hl IH Hy]; simpl.
  - repeat constructor.
  - destruct (JS.leb x y) eqn:E.
    + constructor; [now constructor|].
      constructor; [assumption|].
      rewrite Forall_forall in *. intros z Hz.
      apply (string_leb_trans x y z E). now apply Hy.
    + constructor; [assumption|].
      rewrite Forall_forall in *. intros z Hz.
      apply (Permutation_in _ (insert_Permutation x l)) in Hz.
      destruct Hz as [<- | Hz]; [|now apply Hy].
      destruct (string_leb_total x y); congruence.
Qed.

Lemma sort_sortedByLeb (l : list string) : sortedByLeb (JS.sort l).
Proof.
  induction l as [|x l IH]; simpl;
    [constructor | now apply insert_sortedByLeb].
Qed.

Lemma compareUnits_unitsLe (a : list N) : forall b,
  JS.compareUnits a b <> Gt <-> unitsLe a b.
Proof.
  induction a as [|x a IH]; intros [|y b]; simpl.
  - split; [constructor | discriminate].
  - split; [constructor | discriminate].
  - split; [congruence | inversion 1].
  - destruct (x ?= y)%N eqn:E.
    + apply N.compare_eq in E. subst y. rewrite IH. split.
      * now constructor.
      * intros H. inversion H as [| ? ? ? ? Hlt | ? ? ? Hle]; subst;
          [exfalso; lia | assumption].
    + apply N.compare_lt_iff in E. split; [now constructor | discriminate].
    + apply N.compare_gt_iff in E. split; [congruence|].
      intros H. inversion H as [| ? ? ? ? Hlt | ? ? ? Hle]; subst;
        exfalso; lia.
Qed.

(** The comparison [a <= b] decides the order. *)
Lemma leb_precedes (a b : string) : JS.leb a b = true <-> precedes a b.
Proof.
  unfold precedes. rewrite <- compareUnits_unitsLe.
  unfold JS.leb, JS.ltb.
  rewrite (compareUnits_antisym (JS.codeUnits a) (JS.codeUnits b)).
  destruct (JS.compareUnits (JS.codeUnits a) (JS.codeUnits b)); simpl;
    split; congruence.
Qed.

Lemma sort_ascending (l : list string) : ascending (JS.sort l).
Proof.
  unfold ascending. pose proof (sort_sortedByLeb l) as H.
  unfold sortedByLeb in H.
  induction H as [|x rest Hrest IH Hx]; constructor; [assumption|].
  rewrite Forall_forall in *. intros y Hy. apply leb_precedes. now apply Hx.
Qed.

Lemma sort_In (l : list string) (x : string) : In x (JS.sort l) <-> In x l.
Proof.
  split; apply Permutation_in;
    [apply sort_Permutation | symmetry; apply sort_Permutation].
Qed.

Lemma sort_NoDup (l : list string) : NoDup l -> NoDup (JS.sort l).
Proof.
  apply Permutation_NoDup. symmetry. apply sort_Permutation.
Qed.

(* ================================================================= *)
(** ** Which aggregates there are *)

Lemma keys_accumulate (key : SurveyCity -> string) m c :
  JSMap.keys (accumulate key m c) = JS.setAdd (JSMap.keys m) (key c).
Proof.
  unfold accumulate, JS.setAdd.
  destruct (JSMap.get m (key c)) eqn:G.
  - rewrite JSMapFacts.keys_set_present by congruence.
    destruct (existsb (String.eqb (key c)) (JSMap.keys m)) eqn:E;
      [reflexivity|].
    exfalso. assert (H : JSMap.get m (key c) = None); [|congruence].
    apply JSMapFacts.get_None_keys. rewrite <- existsb_eqb_In. congruence.
  - rewrite JSMapFacts.keys_set_absent by assumption.
    apply JSMapFacts.get_None_keys in G. rewrite <- existsb_eqb_In in G.
    destruct (existsb (String.eqb (key c)) (JSMap.keys m));
      [congruence | reflexivity].
Qed.

Lemma keys_fold_accumulate (key : SurveyCity -> string) cities : forall m,
  JSMap.keys (fold_left (accumulate key) cities m)
  = fold_left JS.setAdd (map key cities) (JSMap.keys m).
Proof.
  induction cities as [|c rest IH]; intros m; simpl; [reflexivity|].
  now rewrite IH, keys_accumulate.
Qed.

Lemma names_aggregateByCountry cities :
  map agg_name (aggregateByCountry cities) = JS.distinct (map country cities).
Proof.
  unfold aggregateByCountry, JSMap.entries. rewrite map_map.
  rewrite (map_ext _ fst) by (intros [k a]; reflexivity).
  apply (keys_fold_accumulate countryKey).
Qed.

Lemma names_aggregateByState cities country' :
  map agg_name (aggregateByState cities country')
  = JS.distinct (map stateKey (filter (inCountry country') cities)).
Proof.
  unfold aggregateByState, JSMap.entries. rewrite map_map.
  rewrite (map_ext _ fst) by (intros [k a]; reflexivity).
  apply (keys_fold_accumulate stateKey).
Qed.

Lemma name_of_country_aggregate cities k :
  (exists agg, In agg (aggregateByCountry cities) /\ agg_name agg = k)
  <-> exists r, In r cities /\ country r = k.
Proof.
  transitivity (In k (map agg_name (aggregateByCountry cities))).
  - rewrite in_map_iff. split; intros [agg H]; exists agg; tauto.
  - rewrite names_aggregateByCountry, distinct_In, in_map_iff.
    split; intros [r H]; exists r; tauto.
Qed.

Lemma name_of_state_aggregate cities country' k :
  (exists agg, In agg (aggregateByState cities country') /\ agg_name agg = k)
  <-> exists r, In r cities /\ country r = country' /\ stateKey r = k.
Proof.
  transitivity (In k (map agg_name (aggregateByState cities country'))).
  - rewrite in_map_iff. split; intros [agg H]; exists agg; tauto.
  - rewrite names_aggregateByState, distinct_In, in_map_iff.
    split; intros [r H]; exists r; rewrite filter_In in *;
      unfold inCountry in *; rewrite String.eqb_eq in *; tauto.
Qed.

(** X1. Either aggregation returns one aggregate per key that occurs, in the
    order in which the keys first occur in the input: the names of the
    aggregates are the distinct countries of the records (the distinct
    state-or-country keys of the records of the given country), without
    repetition. *)
Theorem aggregates_one_per_key (cities : list SurveyCity) :
  map agg_name (aggregateByCountry cities) = JS.distinct (map country cities)
  /\ NoDup (map agg_name (aggregateByCountry cities))
  /\ (forall k, In k (map agg_name (aggregateByCountry cities))
                <-> exists r, In r cities /\ country r = k)
  /\ forall country',
       map agg_name (aggregateByState cities country')
       = JS.distinct (map stateKey (filter (inCountry country') cities))
       /\ NoDup (map agg_name (aggregateByState cities country'))
       /\ (forall k, In k (map agg_name (aggregateByState cities country'))
                     <-> exists r, In r cities /\ country r = country'
                                   /\ stateKey r = k).
Proof.
  split; [apply names_aggregateByCountry|].
  split; [rewrite names_aggregateByCountry; apply distinct_NoDup|].
  split.
  - intros k. rewrite names_aggregateByCountry, distinct_In, in_map_iff.
    split; intros [r H]; exists r; tauto.
  - intros country'.
    split; [apply names_aggregateByState|].
    split; [rewrite names_aggregateByState; apply distinct_NoDup|].
    intros k. rewrite names_aggregateByState, distinct_In, in_map_iff.
    split; intros [r H]; exists r; rewrite filter_In in *;
      unfold inCountry in *; rewrite String.eqb_eq in *; tauto.
Qed.

Lemma fold_setAdd_length (l : list string) : forall s,
  (List.length (fold_left JS.setAdd l s) <= List.length s + List.length l)%nat.
Proof.
  induction l as [|x l IH]; intros s; simpl; [lia|].
  specialize (IH (JS.setAdd s x)). unfold JS.setAdd in *.
  destruct (existsb (String.eqb x) s); [lia|].
  rewrite length_app in IH. simpl in IH. lia.
Qed.

(** X2. Empty input gives empty output and nothing else does: the country
    aggregation is empty exactly for the empty list, the state aggregation
    exactly when no record is of the given country; and there are never more
    aggregates than records. *)
Theorem aggregates_empty_iff (cities : list SurveyCity) :
  (aggregateByCountry cities = [] <-> cities = [])
  /\ (List.length (aggregateByCountry cities) <= List.length cities)%nat
  /\ forall country',
       (aggregateByState cities country' = []
        <-> forall r, In r cities -> country r <> country')
       /\ (List.length (aggregateByState cities country')
           <= List.length cities)%nat.
Proof.
  assert (Hnil : forall A (l : list A), l = [] <-> forall x, ~ In x l).
  { intros A [|x l]; split; intros H; try reflexivity; try discriminate.
    - intros x [].
    - exfalso. apply (H x). now left. }
  split; [|split].
  - rewrite (Hnil _ (aggregateByCountry cities)), (Hnil _ cities). split.
    + intros H r Hr.
      destruct (proj2 (name_of_country_aggregate cities (country r)))
        as [agg [Hagg _]]; [now exists r|].
      exact (H agg Hagg).
    + intros H agg Hagg.
      destruct (proj1 (name_of_country_aggregate cities (agg_name agg)))
        as [r [Hr _]]; [now exists agg|].
      exact (H r Hr).
  - rewrite <- (length_map agg_name), names_aggregateByCountry.
    unfold JS.distinct.
    rewrite <- (length_map country cities).
    apply (fold_setAdd_length (map country cities) []).
  - intros country'. split.
    + rewrite (Hnil _ (aggregateByState cities country')). split.
      * intros H r Hr Hc.
        destruct (proj2 (name_of_state_aggregate cities country' (stateKey r)))
          as [agg [Hagg _]]; [now exists r|].
        exact (H agg Hagg).
      * intros H agg Hagg.
        destruct (proj1 (name_of_state_aggregate cities country' (agg_name agg)))
          as [r [Hr [Hc _]]]; [now exists agg|].
        exact (H r Hr Hc).
    + rewrite <- (length_map agg_name), names_aggregateByState.
      unfold JS.distinct.
      pose proof (fold_setAdd_length
                    (map stateKey (filter (inCountry country') cities)) []) as H.
      rewrite length_map in H. simpl in H.
      pose proof (filter_length_le (inCountry country') cities). lia.
Qed.

Lemma stateKey_cases (r : SurveyCity) :
  (state r <> "" /\ stateKey r = state r)
  \/ (state r = "" /\ stateKey r = country r).
Proof.
  unfold stateKey, JS.or_else, JS.truthy.
  destruct (state r =? "") eqn:E; simpl.
  - apply String.eqb_eq in E. now right.
  - apply String.eqb_neq in E. now left.
Qed.

Lemma state_aggregate_record cities country' agg :
  In agg (aggregateByState cities country') ->
  exists r, In r cities /\ country r = country'
            /\ ((state r <> "" /\ agg_name agg = state r)
                \/ (state r = "" /\ agg_name agg = country')).
Proof.
  intros Hin.
  assert (Hr : exists r, In r cities /\ country r = country'
                         /\ stateKey r = agg_name agg)
    by (apply name_of_state_aggregate; now exists agg).
  destruct Hr as [r [Hr [Hc Hk]]]. exists r. repeat split; try assumption.
  destruct (stateKey_cases r) as [[H1 H2] | [H1 H2]]; [left | right];
    split; congruence.
Qed.

Lemma state_aggregate_name_nonempty cities country' agg :
  In agg (aggregateByState cities country') ->
  country' <> "" -> agg_name agg <> "".
Proof.
  intros Hin Hne.
  destruct (state_aggregate_record _ _ _ Hin) as [r [_ [_ Hcase]]].
  destruct Hcase as [[H1 H2] | [H1 H2]]; congruence.
Qed.

(** X3. Every aggregate that [aggregateByState] returns for a country is a
    state-level record that carries that country and its own name as state;
    the name is the state of some record of that country, or the country
    itself for a record whose state is empty, so it is not empty unless the
    country is. *)
Theorem state_aggregate_shape (cities : list SurveyCity) (country' : string)
    (agg : SurveyAggregate) :
  In agg (aggregateByState cities country') ->
  agg_level agg = LState
  /\ agg_country agg = Some country'
  /\ agg_state agg = Some (agg_name agg)
  /\ (exists r, In r cities /\ country r = country'
                /\ ((state r <> "" /\ agg_name agg = state r)
                    \/ (state r = "" /\ agg_name agg = country')))
  /\ (country' <> "" -> agg_name agg <> "").
Proof.
  intros Hin.
  destruct (aggregateByState_inv _ _ _ Hin) as [a [_ Heq]].
  pose proof (state_aggregate_record _ _ _ Hin) as Hr.
  pose proof (state_aggregate_name_nonempty _ _ _ Hin) as Hne.
  rewrite Heq at 1 2 3. simpl. tauto.
Qed.

Lemma state_aggregate_shape_witness :
  agg_level (stateAggregate "USA" ("CA", addSums (firstSums (scenarioRecord 80))
                                                 (scenarioRecord 40)))
  = LState
  /\ agg_country (stateAggregate "USA" ("CA", addSums (firstSums (scenarioRecord 80))
                                                      (scenarioRecord 40)))
     = Some "USA"
  /\ agg_state (stateAggregate "USA" ("CA", addSums (firstSums (scenarioRecord 80))
                                                    (scenarioRecord 40)))
     = Some "CA"
  /\ (exists r, In r sampleData /\ country r = "USA"
                /\ ((state r <> "" /\ "CA" = state r)
                    \/ (state r = "" /\ "CA" = "USA")))
  /\ ("USA" <> "" -> "CA" <> "").
Proof.
  apply (state_aggregate_shape sampleData "USA"
           (stateAggregate "USA" ("CA", addSums (firstSums (scenarioRecord 80))
                                                (scenarioRecord 40)))).
  left. reflexivity.
Defined.

(* ================================================================= *)
(** ** The dropdown lists *)

(** X4. The [countries] list is in ascending order of the UTF-16 code units
    (the order of [sort()] and [<]), has no repetition, and holds exactly the
    names of the country aggregates of the data (the countries of its
    records). *)
Theorem countries_sorted_names (st : ViewState) :
  ascending (countries st)
  /\ NoDup (countries st)
  /\ forall c,
       In c (countries st)
       <-> exists agg,
             In agg (aggregateByCountry (surveyData st)) /\ agg_name agg = c.
Proof.
  unfold countries. split; [apply sort_ascending|].
  split; [apply sort_NoDup, distinct_NoDup|].
  intros c. rewrite sort_In, <- names_aggregateByCountry, in_map_iff.
  split; intros [agg H]; exists agg; tauto.
Qed.

(** X5. The [states] list is empty while no country is selected; with a
    country selected it is in ascending order of the UTF-16 code units, has
    no repetition, holds exactly the names of that country's state
    aggregates, and none of them is empty. *)
Theorem states_sorted_names (st : ViewState) :
  (unselected (selectedCountry st) -> states st = [])
  /\ forall c,
       selected (selectedCountry st) c ->
       ascending (states st)
       /\ NoDup (states st)
       /\ (forall s,
              In s (states st)
              <-> exists agg,
                    In agg (aggregateByState (surveyData st) c)
                    /\ agg_name agg = s)
       /\ ~ In "" (states st).
Proof.
  unfold states. split.
  - intros H. now rewrite (nonEmpty_unselected _ H).
  - intros c H. rewrite (nonEmpty_selected _ _ H).
    assert (Hmem : forall s,
               In s (JS.sort (JS.distinct
                       (map stateKey (filter (inCountry c) (surveyData st)))))
               <-> exists agg,
                     In agg (aggregateByState (surveyData st) c)
                     /\ agg_name agg = s).
    { intros s. rewrite sort_In, <- names_aggregateByState, in_map_iff.
      split; intros [agg Hagg]; exists agg; tauto. }
    split; [apply sort_ascending|].
    split; [apply sort_NoDup, distinct_NoDup|].
    split; [exact Hmem|].
    intros Hin. apply Hmem in Hin. destruct Hin as [agg [Hagg Hname]].
    destruct H as [_ Hc].
    exact (state_aggregate_name_nonempty _ _ _ Hagg Hc Hname).
Qed.

Lemma states_sorted_names_witness :
  ascending (states (sampleView LState (Some "USA") None))
  /\ NoDup (states (sampleView LState (Some "USA") None))
  /\ (forall s,
         In s (states (sampleView LState (Some "USA") None))
         <-> exists agg,
               In agg (aggregateByState sampleData "USA") /\ agg_name agg = s)
  /\ ~ In "" (states (sampleView LState (Some "USA") None)).
Proof.
  apply (proj2 (states_sorted_names (sampleView LState (Some "USA") None)) "USA").
  split; [reflexivity | discriminate].
Defined.

(* ================================================================= *)
(** ** The survey date of an aggregate *)

Lemma leb_empty (s : string) : JS.leb "" s = true.
Proof.
  unfold JS.leb, JS.ltb. simpl.
  destruct (JS.codeUnits s); reflexivity.
Qed.

Lemma truthy_opt_false (o : option string) :
  JS.truthy_opt o = false -> o = None \/ o = Some "".
Proof.
  destruct o as [s|]; [|now left]. simpl. unfold JS.truthy.
  destruct (s =? "") eqn:E; [|discriminate].
  apply String.eqb_eq in E. subst. now right.
Qed.

Lemma truthy_opt_true (o : option string) :
  JS.truthy_opt o = true -> exists s, o = Some s /\ s <> "".
Proof.
  destruct o as [s|]; [|discriminate]. simpl. unfold JS.truthy.
  destruct (s =? "") eqn:E; [discriminate|].
  apply String.eqb_neq in E. eauto.
Qed.

Lemma undated_below (r : SurveyCity) (d' s : string) :
  hasDate r = false -> surveyDate r = Some d' -> JS.leb d' s = true.
Proof.
  unfold hasDate. intros H E. rewrite E in H.
  destruct (truthy_opt_false _ H) as [H' | H']; [discriminate|].
  injection H' as ->. apply leb_empty.
Qed.

Lemma dateSeen_step d0 seen d c :
  dateSeen d0 seen d ->
  dateSeen d0 (seen ++ [c])%list
           (if newerDate d c then surveyDate c else d).
Proof.
  intros Hinv. unfold newerDate.
  destruct (JS.truthy_opt (surveyDate c)) eqn:Hc; simpl.
  - destruct (truthy_opt_true _ Hc) as [dc [Edc Hdc]]. rewrite Edc.
    destruct Hinv as [Hd0 Hnone | s Hs [r [Hr Er]] Hmax].
    + rewrite Hd0. simpl. apply dateSeen_some; [assumption | |].
      * exists c. split; [apply in_or_app; right; now left | assumption].
      * intros r d' Hr Er. apply in_app_or in Hr.
        destruct Hr as [Hr | [<- | []]].
        -- apply (undated_below r); [now apply Hnone | assumption].
        -- rewrite Edc in Er. injection Er as <-. apply string_leb_refl.
    + assert (Hts : JS.truthy_opt (Some s) = true).
      { simpl. unfold JS.truthy. apply String.eqb_neq in Hs. now rewrite Hs. }
      rewrite Hts. simpl. destruct (JS.gtb dc s) eqn:G.
      * apply dateSeen_some; [assumption | |].
        -- exists c. split; [apply in_or_app; right; now left | assumption].
        -- intros r' d' Hr' Er'. apply in_app_or in Hr'.
           destruct Hr' as [Hr' | [<- | []]].
           ++ apply (string_leb_trans d' s dc);
                [now apply (Hmax r') | now apply gtb_true_leb].
           ++ rewrite Edc in Er'. injection Er' as <-. apply string_leb_refl.
      * apply dateSeen_some; [assumption | |].
        -- exists r. split; [apply in_or_app; now left | assumption].
        -- intros r' d' Hr' Er'. apply in_app_or in Hr'.
           destruct Hr' as [Hr' | [<- | []]].
           ++ now apply (Hmax r').
           ++ rewrite Edc in Er'. injection Er' as <-.
              now apply gtb_false_leb.
  - destruct Hinv as [Hd0 Hnone | s Hs [r [Hr Er]] Hmax].
    + apply dateSeen_none; [assumption|].
      intros r Hr. apply in_app_or in Hr.
      destruct Hr as [Hr | [<- | []]]; [now apply Hnone | exact Hc].
    + apply dateSeen_some; [assumption | |].
      * exists r. split; [apply in_or_app; now left | assumption].
      * intros r' d' Hr' Er'. apply in_app_or in Hr'.
        destruct Hr' as [Hr' | [<- | []]].
        -- now apply (Hmax r').
        -- now apply (undated_below c).
Qed.

Lemma dateSeen_fold d0 rest : forall seen a,
  dateSeen d0 seen (date a) ->
  dateSeen d0 (seen ++ rest)%list (date (fold_left addSums rest a)).
Proof.
  induction rest as [|c rest IH]; intros seen a H; simpl.
  - now rewrite app_nil_r.
  - replace (seen ++ c :: rest)%list with ((seen ++ [c]) ++ rest)%list
      by now rewrite <- app_assoc.
    apply IH. simpl. now apply dateSeen_step.
Qed.

Lemma groupSums_date g a :
  groupSums g = Some a -> latestDateOf g (date a).
Proof.
  destruct g as [|r0 rest]; simpl; [discriminate|]. intros [= <-].
  assert (H0 : dateSeen (surveyDate r0) [r0] (date (firstSums r0))).
  { simpl. destruct (JS.truthy_opt (surveyDate r0)) eqn:E.
    - destruct (truthy_opt_true _ E) as [s [Es Hs]]. rewrite Es.
      apply dateSeen_some; [assumption | |].
      + exists r0. split; [now left | assumption].
      + intros r d' [<- | []] Er. rewrite Es in Er. injection Er as <-.
        apply string_leb_refl.
    - apply dateSeen_none; [assumption|]. intros r [<- | []]. exact E. }
  pose proof (dateSeen_fold _ rest _ _ H0) as H. simpl in H.
  unfold latestDateOf. split.
  - intros Hnone. destruct H as [_ _ | s Hs [r [Hr Er]] _]; [reflexivity|].
    exfalso. specialize (Hnone r Hr). unfold hasDate in Hnone.
    rewrite Er in Hnone. simpl in Hnone. unfold JS.truthy in Hnone.
    apply String.eqb_neq in Hs. rewrite Hs in Hnone. discriminate.
  - intros [r [Hr Hd]].
    destruct H as [_ Hnone | s Hs Hex Hmax].
    + rewrite (Hnone r Hr) in Hd. discriminate.
    + exists s. repeat split; try assumption.
      intros r' d' Hr' Er'. apply leb_precedes. now apply (Hmax r').
Qed.

(** X6. The survey date of an aggregate is the latest date of its group:
    when some record of the group has a date (present and not empty), it is
    the greatest of the group's dates in the order in which [>] compares
    strings (by UTF-16 code units), and it is the date of one of the
    records; when none has, it is whatever the first record of the group
    carries (nothing, or the empty string). *)
Theorem aggregate_date_is_latest (cities : list SurveyCity) :
  (forall agg,
      In agg (aggregateByCountry cities) ->
      latestDateOf (group countryKey (agg_name agg) cities) (agg_surveyDate agg))
  /\ (forall country' agg,
      In agg (aggregateByState cities country') ->
      latestDateOf
        (group stateKey (agg_name agg) (filter (inCountry country') cities))
        (agg_surveyDate agg)).
Proof.
  split.
  - intros agg Hin.
    destruct (aggregateByCountry_inv _ _ Hin) as [a [Ha Heq]].
    rewrite Heq at 2. simpl. now apply groupSums_date.
  - intros country' agg Hin.
    destruct (aggregateByState_inv _ _ _ Hin) as [a [Ha Heq]].
    rewrite Heq at 2. simpl. now apply groupSums_date.
Qed.

Lemma aggregate_date_is_latest_witness :
  latestDateOf (group countryKey "USA" datedSample)
               (Some "2024-06-15T10:30:00Z").
Proof.
  apply (proj1 (aggregate_date_is_latest datedSample)
               (countryAggregate
                  ("USA", addSums (firstSums (datedRecord "2024-06-15T10:30:00Z"))
                                  (datedRecord "2024-01-05T08:00:00Z")))).
  left. reflexivity.
Defined.

(* ================================================================= *)
(** ** Drilling down and back *)

Lemma aggregateByCountry_nil cities :
  aggregateByCountry cities = [] <-> cities = [].
Proof.
  split.
  - intros H. destruct cities as [|r rest]; [reflexivity|]. exfalso.
    destruct (proj2 (name_of_country_aggregate (r :: rest) (country r)))
      as [agg [Hagg _]]; [exists r; split; [now left | reflexivity]|].
    rewrite H in Hagg. destruct Hagg.
  - intros ->. reflexivity.
Qed.

Lemma aggregateByState_not_nil cities country' r :
  In r cities -> country r = country' ->
  aggregateByState cities country' <> [].
Proof.
  intros Hr Hc H.
  destruct (proj2 (name_of_state_aggregate cities country' (stateKey r)))
    as [agg [Hagg _]]; [now exists r|].
  rewrite H in Hagg. destruct Hagg.
Qed.

Lemma in_aggregates agg l : In (inl agg) (aggregates l) <-> In agg l.
Proof.
  unfold aggregates. rewrite in_map_iff. split.
  - intros [x [[= ->] H]]. exact H.
  - intros H. now exists agg.
Qed.

Lemma country_aggregate_level cities agg :
  In agg (aggregateByCountry cities) -> agg_level agg = LCountry.
Proof.
  intros Hin. destruct (aggregateByCountry_inv _ _ Hin) as [a [_ ->]].
  reflexivity.
Qed.

Lemma state_aggregate_level cities country' agg :
  In agg (aggregateByState cities country') ->
  agg_level agg = LState /\ agg_country agg = Some country'.
Proof.
  intros Hin. destruct (aggregateByState_inv _ _ _ Hin) as [a [_ ->]].
  split; reflexivity.
Qed.

Lemma truthy_nonempty s : s <> "" -> JS.truthy s = true.
Proof. intros H. unfold JS.truthy. apply String.eqb_neq in H. now rewrite H. Qed.

(** X7. Clicking the marker of a country aggregate drills into that country:
    at level country, for an aggregate of the render set with a non-empty
    name, the click handler leaves the view at level state with that country
    selected and no state, and the render set becomes the state aggregates
    of that country, of which there is at least one.  An aggregate whose name
    is empty (records without a country) leads to an empty render set. *)
Theorem click_country_marker (st : ViewState) (agg : SurveyAggregate) :
  drillLevel st = LCountry ->
  In (inl agg) (currentMapData st) ->
  markerClick (inl agg) st = onCountrySelect (agg_name agg) st
  /\ (agg_name agg <> "" ->
      currentMapData (markerClick (inl agg) st)
      = aggregates (aggregateByState (surveyData st) (agg_name agg))
      /\ currentMapData (markerClick (inl agg) st) <> [])
  /\ (agg_name agg = "" -> currentMapData (markerClick (inl agg) st) = []).
Proof.
  intros Hlevel Hin.
  assert (Hagg : In agg (aggregateByCountry (surveyData st))).
  { apply in_aggregates. unfold currentMapData in Hin.
    now rewrite Hlevel in Hin. }
  assert (Hclick : markerClick (inl agg) st = onCountrySelect (agg_name agg) st).
  { unfold markerClick. now rewrite (country_aggregate_level _ _ Hagg). }
  rewrite Hclick. split; [reflexivity|]. split.
  - intros Hne.
    assert (E : currentMapData (onCountrySelect (agg_name agg) st)
                = aggregates (aggregateByState (surveyData st) (agg_name agg))).
    { unfold currentMapData. simpl. now rewrite (truthy_nonempty _ Hne). }
    split; [exact E|]. rewrite E.
    destruct (proj1 (name_of_country_aggregate (surveyData st) (agg_name agg)))
      as [r [Hr Hc]]; [now exists agg|].
    pose proof (aggregateByState_not_nil _ _ r Hr Hc) as Hnn.
    unfold aggregates. intros Hnil. apply map_eq_nil in Hnil. contradiction.
  - intros He. unfold currentMapData. simpl. now rewrite He.
Qed.

Lemma click_country_marker_witness :
  markerClick (inl (countryAggregate
                      ("India", firstSums silentRecord)))
              (sampleView LCountry None None)
  = onCountrySelect "India" (sampleView LCountry None None)
  /\ ("India" <> "" ->
      currentMapData
        (markerClick (inl (countryAggregate ("India", firstSums silentRecord)))
                     (sampleView LCountry None None))
      = aggregates (aggregateByState sampleData "India")
      /\ currentMapData
           (markerClick (inl (countryAggregate ("India", firstSums silentRecord)))
                        (sampleView LCountry None None))
         <> [])
  /\ ("India" = "" ->
      currentMapData
        (markerClick (inl (countryAggregate ("India", firstSums silentRecord)))
                     (sampleView LCountry None None))
      = []).
Proof.
  apply (click_country_marker (sampleView LCountry None None)
           (countryAggregate ("India", firstSums silentRecord))).
  - reflexivity.
  - right. left. reflexivity.
Defined.

(** X8. Clicking the marker of a state aggregate shows what it was made of:
    at level state with a country selected, the click handler of an
    aggregate of the render set leaves the view at level city with the same
    country and the aggregate's name as state, and the render set becomes
    the raw records of the aggregate's group, which is not empty. *)
Theorem click_state_marker (st : ViewState) (c : string) (agg : SurveyAggregate) :
  drillLevel st = LState ->
  selected (selectedCountry st) c ->
  In (inl agg) (currentMapData st) ->
  markerClick (inl agg) st = onStateSelect (agg_name agg) st
  /\ currentMapData (markerClick (inl agg) st)
     = rawCities (group stateKey (agg_name agg)
                        (filter (inCountry c) (surveyData st)))
  /\ group stateKey (agg_name agg) (filter (inCountry c) (surveyData st)) <> [].
Proof.
  intros Hlevel Hsel Hin.
  assert (Hagg : In agg (aggregateByState (surveyData st) c)).
  { apply in_aggregates. unfold currentMapData in Hin.
    now rewrite Hlevel, (nonEmpty_selected _ _ Hsel) in Hin. }
  destruct (state_aggregate_level _ _ _ Hagg) as [Hl Hc].
  pose proof (state_aggregate_name_nonempty _ _ _ Hagg (proj2 Hsel)) as Hname.
  assert (Hclick : markerClick (inl agg) st = onStateSelect (agg_name agg) st).
  { unfold markerClick. rewrite Hl, Hc. simpl.
    now rewrite (truthy_nonempty _ (proj2 Hsel)). }
  rewrite Hclick. split; [reflexivity|]. split.
  - unfold currentMapData. simpl.
    rewrite (nonEmpty_selected _ _ Hsel), (truthy_nonempty _ Hname).
    reflexivity.
  - destruct (aggregateByState_inv _ _ _ Hagg) as [a [Ha _]].
    intros E. rewrite E in Ha. discriminate.
Qed.

Lemma click_state_marker_witness :
  markerClick
    (inl (stateAggregate "USA" ("CA", addSums (firstSums (scenarioRecord 80))
                                              (scenarioRecord 40))))
    (sampleView LState (Some "USA") None)
  = onStateSelect "CA" (sampleView LState (Some "USA") None)
  /\ currentMapData
       (markerClick
          (inl (stateAggregate "USA" ("CA", addSums (firstSums (scenarioRecord 80))
                                                    (scenarioRecord 40))))
          (sampleView LState (Some "USA") None))
     = rawCities (group stateKey "CA" (filter (inCountry "USA") sampleData))
  /\ group stateKey "CA" (filter (inCountry "USA") sampleData) <> [].
Proof.
  apply (click_state_marker (sampleView LState (Some "USA") None) "USA"
           (stateAggregate "USA" ("CA", addSums (firstSums (scenarioRecord 80))
                                                (scenarioRecord 40)))).
  - reflexivity.
  - split; [reflexivity | discriminate].
  - left. reflexivity.
Defined.

(** X9. Going back undoes drilling down: from a state-level view without a
    selected state (such as [onCountrySelect] leaves), selecting a state and
    then [goBackFromCity] gives back exactly the view before; going back from
    the state level instead gives the root view, the same as [goToWorld],
    whose render set is the country aggregates of the data. *)
Theorem back_undoes_drill (st : ViewState) (s : string) :
  drillLevel st = LState -> selectedState st = None ->
  goBackFromCity (onStateSelect s st) = st
  /\ goBackFromState (onStateSelect s st) = goToWorld st
  /\ goToWorld (goToWorld st) = goToWorld st
  /\ currentMapData (goToWorld st)
     = aggregates (aggregateByCountry (surveyData st)).
Proof.
  intros Hl Hs. repeat split; try reflexivity.
  destruct st. simpl in *. subst. reflexivity.
Qed.

Lemma back_undoes_drill_witness :
  goBackFromCity (onStateSelect "CA" (onCountrySelect "USA" initialState))
  = onCountrySelect "USA" initialState
  /\ goBackFromState (onStateSelect "CA" (onCountrySelect "USA" initialState))
     = goToWorld (onCountrySelect "USA" initialState)
  /\ goToWorld (goToWorld (onCountrySelect "USA" initialState))
     = goToWorld (onCountrySelect "USA" initialState)
  /\ currentMapData (goToWorld (onCountrySelect "USA" initialState))
     = aggregates (aggregateByCountry []).
Proof.
  apply (back_undoes_drill (onCountrySelect "USA" initialState) "CA");
    reflexivity.
Defined.

(* ================================================================= *)
(** ** Views without data, the city list and the dropdown entries *)

Lemma surveyData_handle (st : ViewState) (e : Event) :
  surveyData (handle st e) = surveyData st.
Proof.
  destruct e; simpl; try reflexivity.
  unfold onStateSelectFromSelect. destruct (JS.truthy value); reflexivity.
Qed.

Lemma surveyData_run (events : list Event) : forall st,
  surveyData (run events st) = surveyData st.
Proof.
  unfold run. induction events as [|e rest IH]; intros st; simpl;
    [reflexivity|].
  now rewrite IH, surveyData_handle.
Qed.

Lemma empty_data_views (st : ViewState) :
  surveyData st = [] ->
  currentMapData st = [] /\ countries st = [] /\ states st = []
  /\ citiesInSelection st = [] /\ useChoropleth st = false.
Proof.
  intros H.
  assert (Hmap : currentMapData st = []).
  { unfold currentMapData. rewrite H.
    destruct (drillLevel st), (JS.nonEmpty (selectedCountry st)),
      (JS.nonEmpty (selectedState st)); reflexivity. }
  repeat split.
  - exact Hmap.
  - unfold countries. now rewrite H.
  - unfold states. rewrite H.
    destruct (JS.nonEmpty (selectedCountry st)); reflexivity.
  - unfold citiesInSelection. rewrite H.
    destruct (JS.nonEmpty (selectedCountry st)),
      (JS.nonEmpty (selectedState st)); reflexivity.
  - unfold useChoropleth. rewrite Hmap. simpl. apply andb_false_r.
Qed.

(** X10. The handlers never touch the loaded records: whatever sequence of
    navigation, setting and load-start or load-failure events runs, the data
    is what it was.  So a view without data (before the data arrives, or
    after the load failed) stays without: the render set, the countries and
    states lists and the city list are empty and no choropleth is drawn, at
    every level and under every selection. *)
Theorem no_data_no_views (events : list Event) (st : ViewState) :
  surveyData st = [] ->
  surveyData (run events st) = []
  /\ currentMapData (run events st) = []
  /\ countries (run events st) = []
  /\ states (run events st) = []
  /\ citiesInSelection (run events st) = []
  /\ useChoropleth (run events st) = false.
Proof.
  intros H.
  assert (H' : surveyData (run events st) = [])
    by now rewrite surveyData_run.
  split; [exact H' | now apply empty_data_views].
Qed.

Lemma no_data_no_views_witness :
  surveyData (run [EvCountrySelect "USA"; EvStateSelect "CA"; EvSetMetric "ces"]
                  (loadError None initialState)) = []
  /\ currentMapData
       (run [EvCountrySelect "USA"; EvStateSelect "CA"; EvSetMetric "ces"]
            (loadError None initialState)) = []
  /\ countries
       (run [EvCountrySelect "USA"; EvStateSelect "CA"; EvSetMetric "ces"]
            (loadError None initialState)) = []
  /\ states
       (run [EvCountrySelect "USA"; EvStateSelect "CA"; EvSetMetric "ces"]
            (loadError None initialState)) = []
  /\ citiesInSelection
       (run [EvCountrySelect "USA"; EvStateSelect "CA"; EvSetMetric "ces"]
            (loadError None initialState)) = []
  /\ useChoropleth
       (run [EvCountrySelect "USA"; EvStateSelect "CA"; EvSetMetric "ces"]
            (loadError None initialState)) = false.
Proof.
  apply (no_data_no_views
           [EvCountrySelect "USA"; EvStateSelect "CA"; EvSetMetric "ces"]
           (loadError None initialState)).
  reflexivity.
Defined.

Lemma nonEmpty_Some (o : option string) (s : string) :
  JS.nonEmpty o = Some s <-> selected o s.
Proof.
  split; [|apply nonEmpty_selected].
  destruct o as [x|]; simpl; [|discriminate]. unfold JS.truthy.
  destruct (x =? "") eqn:E; simpl; [discriminate|].
  intros [= ->]. apply String.eqb_neq in E. now split.
Qed.

Lemma nonEmpty_None (o : option string) :
  JS.nonEmpty o = None <-> unselected o.
Proof.
  split; [|apply nonEmpty_unselected].
  destruct o as [x|]; simpl; [|now left]. unfold JS.truthy.
  destruct (x =? "") eqn:E; simpl; [|discriminate].
  apply String.eqb_eq in E. subst. now right.
Qed.

(** X11. [citiesInSelection] is the render set of the city level, and it
    selects from the data: a record is in it exactly when it is a record of
    the data, of the selected country when one is selected, and, when a state
    is selected as well, with that state as its state-or-country key. *)
Theorem citiesInSelection_selects (st : ViewState) (r : SurveyCity) :
  (drillLevel st = LCity -> currentMapData st = rawCities (citiesInSelection st))
  /\ (In r (citiesInSelection st)
      <-> In r (surveyData st)
          /\ forall c, selected (selectedCountry st) c ->
                       country r = c
                       /\ forall s, selected (selectedState st) s ->
                                    stateKey r = s).
Proof.
  split.
  - intros Hl. unfold currentMapData, citiesInSelection. rewrite Hl. simpl.
    destruct (JS.nonEmpty (selectedCountry st)),
      (JS.nonEmpty (selectedState st)); reflexivity.
  - unfold citiesInSelection.
    destruct (JS.nonEmpty (selectedCountry st)) as [c|] eqn:Ec.
    + apply nonEmpty_Some in Ec.
      assert (Hc : forall c', selected (selectedCountry st) c' -> c' = c).
      { intros c' [H1 _]. destruct Ec as [H2 _]. congruence. }
      destruct (JS.nonEmpty (selectedState st)) as [s|] eqn:Es.
      * apply nonEmpty_Some in Es.
        assert (Hs : forall s', selected (selectedState st) s' -> s' = s).
        { intros s' [H1 _]. destruct Es as [H2 _]. congruence. }
        rewrite !filter_In. unfold inState, inCountry.
        rewrite !String.eqb_eq. split.
        -- intros [[Hr Hrc] Hrs]. split; [assumption|].
           intros c' Hc'. rewrite (Hc c' Hc'). split; [assumption|].
           intros s' Hs'. now rewrite (Hs s' Hs').
        -- intros [Hr H]. destruct (H c Ec) as [Hrc H'].
           repeat split; try assumption. now apply H'.
      * apply nonEmpty_None in Es.
        rewrite filter_In. unfold inCountry. rewrite String.eqb_eq. split.
        -- intros [Hr Hrc]. split; [assumption|].
           intros c' Hc'. rewrite (Hc c' Hc'). split; [assumption|].
           intros s' [Hs1 Hs2]. destruct Es as [Es | Es]; congruence.
        -- intros [Hr H]. destruct (H c Ec) as [Hrc _]. now split.
    + apply nonEmpty_None in Ec. split.
      * intros Hr. split; [assumption|].
        intros c' [Hc1 Hc2]. destruct Ec as [Ec | Ec]; congruence.
      * tauto.
Qed.

Lemma citiesInSelection_selects_witness :
  currentMapData (sampleView LCity (Some "USA") (Some "CA"))
  = rawCities (citiesInSelection (sampleView LCity (Some "USA") (Some "CA"))).
Proof.
  apply (proj1 (citiesInSelection_selects
                  (sampleView LCity (Some "USA") (Some "CA")) silentRecord)).
  reflexivity.
Defined.

(** The test for the choropleth holds exactly when the display type is
    area, the drill level is country and there is data. *)
Lemma useChoropleth_test (st : ViewState) :
  useChoropleth st = true
  <-> displayType st = DArea /\ drillLevel st = LCountry /\ surveyData st <> [].
Proof.
  unfold useChoropleth, currentMapData.
  destruct (displayType st), (drillLevel st); simpl;
    try (split; [discriminate | intros (H1 & H2 & H3); discriminate]).
  unfold aggregates. rewrite length_map.
  destruct (aggregateByCountry (surveyData st)) as [|a l] eqn:E; simpl.
  - apply aggregateByCountry_nil in E. split; [discriminate|].
    intros (_ & _ & H). contradiction.
  - split; [|reflexivity]. intros _. repeat split.
    intros H. apply aggregateByCountry_nil in H. congruence.
Qed.

Lemma updateMarkersBranch_test (st : ViewState) :
  updateMarkersBranch true st
  = if useChoropleth st
    then ChoroplethCall (currentMapData st) (selectedMetric st)
    else MarkerPerItem (currentMapData st).
Proof. reflexivity. Qed.

(** X12. Which way [updateMarkers] goes: without a map it does nothing; with
    a map it calls [addChoroplethLayer], and adds no marker itself, exactly
    when the display type is area, the drill level is country and there is
    data, and it passes the country aggregates of the data (so every item it
    passes is an aggregate) and the selected metric; in every other case
    with a map it goes through the render set item by item. *)
Theorem updateMarkers_branches (hasMap : bool) (st : ViewState) :
  (hasMap = false -> updateMarkersBranch hasMap st = NoMap)
  /\ ((exists data metric,
          updateMarkersBranch hasMap st = ChoroplethCall data metric)
      <-> hasMap = true /\ displayType st = DArea
          /\ drillLevel st = LCountry /\ surveyData st <> [])
  /\ (forall data metric,
         updateMarkersBranch hasMap st = ChoroplethCall data metric ->
         data = aggregates (aggregateByCountry (surveyData st))
         /\ metric = selectedMetric st)
  /\ (hasMap = true ->
      ~ (displayType st = DArea /\ drillLevel st = LCountry
         /\ surveyData st <> []) ->
      updateMarkersBranch hasMap st = MarkerPerItem (currentMapData st)).
Proof.
  destruct hasMap.
  - rewrite updateMarkersBranch_test.
    pose proof (useChoropleth_test st) as Htest.
    destruct (useChoropleth st) eqn:E.
    + destruct (proj1 Htest eq_refl) as (Hd & Hl & Hs).
      split; [discriminate|]. split; [|split].
      * split; [tauto | intros _; eauto].
      * intros data metric [= <- <-]. split; [|reflexivity].
        unfold currentMapData. now rewrite Hl.
      * intros _ Hn. tauto.
    + split; [discriminate|]. split; [|split].
      * split; [intros (d & m & H); discriminate|].
        intros (_ & H). apply Htest in H. discriminate.
      * intros data metric H. discriminate.
      * reflexivity.
  - split; [reflexivity|]. split; [|split].
    + split; [intros (d & m & H); discriminate | intros (H & _); discriminate].
    + intros data metric H. discriminate.
    + discriminate.
Qed.

Lemma updateMarkers_branches_witness :
  updateMarkersBranch true (mixedView LCity (Some "USA") (Some "CA"))
  = MarkerPerItem (currentMapData (mixedView LCity (Some "USA") (Some "CA"))).
Proof.
  apply (proj2 (proj2 (proj2
           (updateMarkers_branches true
              (mixedView LCity (Some "USA") (Some "CA")))))).
  - reflexivity.
  - intros (H & _). discriminate.
Defined.

(** X13. Every entry of a dropdown leads to something to show: selecting a
    non-empty entry of [countries] gives the state aggregates of that
    country, at least one; selecting an entry of [states] through the state
    dropdown gives the raw records of that state in the selected country, at
    least one. *)
Theorem dropdown_entries_have_data (st : ViewState) :
  (forall c,
      In c (countries st) -> c <> "" ->
      currentMapData (onCountrySelect c st)
      = aggregates (aggregateByState (surveyData st) c)
      /\ aggregateByState (surveyData st) c <> [])
  /\ (forall c s,
      selected (selectedCountry st) c -> In s (states st) ->
      currentMapData (onStateSelectFromSelect s st)
      = rawCities (group stateKey s (filter (inCountry c) (surveyData st)))
      /\ group stateKey s (filter (inCountry c) (surveyData st)) <> []).
Proof.
  split.
  - intros c Hin Hne. split.
    + unfold currentMapData. simpl. now rewrite (truthy_nonempty _ Hne).
    + unfold countries in Hin.
      rewrite sort_In, distinct_In, in_map_iff in Hin.
      destruct Hin as [r [Hc Hr]].
      now apply (aggregateByState_not_nil _ _ r).
  - intros c s Hsel Hin.
    unfold states in Hin. rewrite (nonEmpty_selected _ _ Hsel) in Hin.
    rewrite sort_In, <- names_aggregateByState, in_map_iff in Hin.
    destruct Hin as [agg [Hname Hagg]].
    pose proof (state_aggregate_name_nonempty _ _ _ Hagg (proj2 Hsel)) as Hs.
    rewrite Hname in Hs. split.
    + unfold onStateSelectFromSelect. rewrite (truthy_nonempty _ Hs).
      unfold currentMapData. simpl.
      rewrite (nonEmpty_selected _ _ Hsel), (truthy_nonempty _ Hs).
      reflexivity.
    + destruct (aggregateByState_inv _ _ _ Hagg) as [a [Ha _]].
      rewrite Hname in Ha. intros E. rewrite E in Ha. discriminate.
Qed.

Lemma dropdown_entries_have_data_witness :
  currentMapData (onStateSelectFromSelect "CA" (sampleView LState (Some "USA") None))
  = rawCities (group stateKey "CA" (filter (inCountry "USA") sampleData))
  /\ group stateKey "CA" (filter (inCountry "USA") sampleData) <> [].
Proof.
  apply (proj2 (dropdown_entries_have_data (sampleView LState (Some "USA") None))
               "USA" "CA").
  - split; [reflexivity | discriminate].
  - left. reflexivity.
Defined.

(* ================================================================= *)
(** ** The radius of a circle marker *)

Lemma SFcompare_antisym (a b : spec_float) :
  SFcompare b a = option_map CompOpp (SFcompare a b).
Proof.
  destruct a as [s | s | | s m e], b as [s' | s' | | s' m' e']; simpl;
    try reflexivity;
    repeat match goal with x : bool |- _ => destruct x end;
    try reflexivity;
    rewrite (Z.compare_antisym e e');
    destruct (e ?= e')%Z; simpl; try reflexivity;
    change (PosDef.Pos.compare_cont Eq m' m) with (Pos.compare_cont Eq m' m);
    change (PosDef.Pos.compare_cont Eq m m') with (Pos.compare_cont Eq m m');
    rewrite (ZC4 m' m); now rewrite ?CompOpp_involutive.
Qed.

Lemma SFcompare_Eq_finite s m e (b : spec_float) :
  SFcompare (S754_finite s m e) b = Some Eq -> b = S754_finite s m e.
Proof.
  destruct b as [s' | s' | | s' m' e']; simpl;
    repeat match goal with x : bool |- _ => destruct x end;
    try discriminate;
    destruct (e ?= e')%Z eqn:Ee; try discriminate;
    apply Z.compare_eq in Ee; subst e'; intros [= H];
    try (apply (f_equal CompOpp) in H; rewrite CompOpp_involutive in H;
         simpl in H);
    apply Pcompare_Eq_eq in H; now subst.
Qed.

Lemma not_nan_spec (x : float) :
  PrimFloat.is_nan x = false -> Prim2SF x <> S754_nan.
Proof.
  unfold PrimFloat.is_nan. rewrite FloatAxioms.eqb_spec. intros H E.
  rewrite E in H. discriminate.
Qed.

Lemma SFcompare_some (a b : spec_float) :
  a <> S754_nan -> b <> S754_nan -> exists c, SFcompare a b = Some c.
Proof.
  destruct a, b; simpl; intros Ha Hb; try congruence; eauto.
Qed.

(** With a finite non-zero [a], [Math.max(a, x)] and [Math.min(a, x)] on a
    number [x] are the usual choice between the two. *)
Lemma Math_max_finite (a x : float) s m e :
  Prim2SF a = S754_finite s m e -> PrimFloat.is_nan x = false ->
  JS.Math_max a x = if PrimFloat.leb a x then x else a.
Proof.
  intros Ha Hx. unfold JS.Math_max, JS.isNegZero.
  rewrite (finite_not_nan a _ _ _ Ha), Hx. simpl.
  rewrite !FloatAxioms.ltb_spec, FloatAxioms.leb_spec.
  unfold SFltb, SFleb. rewrite (SFcompare_antisym (Prim2SF a) (Prim2SF x)).
  destruct (SFcompare_some (Prim2SF a) (Prim2SF x)) as [c Hc];
    [rewrite Ha; discriminate | now apply not_nan_spec |].
  rewrite Hc. destruct c; simpl; try reflexivity.
  rewrite Ha in *. apply SFcompare_Eq_finite in Hc.
  rewrite <- Ha in Hc. now apply Prim2SF_inj.
Qed.

Lemma Math_min_finite (a x : float) s m e :
  Prim2SF a = S754_finite s m e -> PrimFloat.is_nan x = false ->
  JS.Math_min a x = if PrimFloat.leb x a then x else a.
Proof.
  intros Ha Hx. unfold JS.Math_min, JS.isNegZero.
  rewrite (finite_not_nan a _ _ _ Ha), Hx. simpl.
  rewrite !FloatAxioms.ltb_spec, FloatAxioms.leb_spec.
  unfold SFltb, SFleb. rewrite (SFcompare_antisym (Prim2SF a) (Prim2SF x)).
  destruct (SFcompare_some (Prim2SF a) (Prim2SF x)) as [c Hc];
    [rewrite Ha; discriminate | now apply not_nan_spec |].
  rewrite Hc, Ha. destruct c; simpl; reflexivity.
Qed.

(** X14. The radius of a circle marker is the response count divided by 10,
    clamped to the range from 5 to 25 pixels: when the quotient is a number,
    the radius is the quotient if it lies between 5 and 25, 5 below and 25
    above, so always at least 5 and at most 25; when the quotient is NaN the
    radius is NaN. *)
Theorem circleRadius_clamped (item : MapItem) :
  (PrimFloat.is_nan (itemResponseCount item / 10) = false ->
   circleRadius item
   = (if PrimFloat.leb 5 (itemResponseCount item / 10)
      then if PrimFloat.leb (itemResponseCount item / 10) 25
           then (itemResponseCount item / 10)%float
           else 25%float
      else 5%float)
   /\ PrimFloat.leb 5 (circleRadius item) = true
   /\ PrimFloat.leb (circleRadius item) 25 = true)
  /\ (PrimFloat.is_nan (itemResponseCount item / 10) = true ->
      circleRadius item = nan).
Proof.
  unfold circleRadius, RADIUS_MIN, RADIUS_MAX, RADIUS_DIVISOR.
  set (x := (itemResponseCount item / 10)%float). split.
  - intros Hx.
    rewrite (Math_max_finite 5 x false 5629499534213120 (-50) eq_refl Hx).
    destruct (PrimFloat.leb 5 x) eqn:E5.
    + rewrite (Math_min_finite 25 x false 7036874417766400 (-48) eq_refl Hx).
      destruct (PrimFloat.leb x 25) eqn:E25; auto.
    + rewrite (Math_min_finite 25 5 false 7036874417766400 (-48) eq_refl eq_refl).
      auto.
  - intros Hx. unfold JS.Math_max. rewrite Hx. reflexivity.
Qed.

Lemma circleRadius_clamped_witness :
  circleRadius (inr (datedRecord "2024-06-15T10:30:00Z"))
  = (if PrimFloat.leb 5 (12 / 10)
     then if PrimFloat.leb (12 / 10) 25 then (12 / 10)%float else 25%float
     else 5%float)
  /\ PrimFloat.leb 5 (circleRadius (inr (datedRecord "2024-06-15T10:30:00Z")))
     = true
  /\ PrimFloat.leb (circleRadius (inr (datedRecord "2024-06-15T10:30:00Z"))) 25
     = true.
Proof.
  apply (proj1 (circleRadius_clamped (inr (datedRecord "2024-06-15T10:30:00Z")))).
  reflexivity.
Defined.

(* ================================================================= *)
(** ** Colours of markers, the legend and the tooltip *)

Lemma safeMetricValue_cases (v : JS.value) :
  (JS.isNumber v = true /\ JS.isNaN_value v = false
   /\ safeMetricValue v = JS.Number v)
  \/ ((JS.isNumber v = false \/ JS.isNaN_value v = true)
      /\ safeMetricValue v = 0%float).
Proof.
  destruct v as [|n]; simpl.
  - right. split; [now left | reflexivity].
  - unfold safeMetricValue, JS.isNaN. simpl.
    destruct (PrimFloat.is_nan n) eqn:E; simpl.
    + right. split; [now right | reflexivity].
    + left. repeat split.
Qed.

(** X15. [safeMetricValue] never returns NaN: it returns the value itself
    when that is a number other than NaN, and 0 for a missing value and for
    NaN; applying it again changes nothing, and [getColor] gives the same
    colour for a value and for its coercion, so the coercion that [getColor]
    does on top of the caller's is harmless. *)
Theorem safeMetricValue_is_a_number (v : JS.value) (metric : string) :
  safeMetricValue v
  = match v with
    | JS.Num n => if PrimFloat.is_nan n then 0%float else n
    | JS.Undefined => 0%float
    end
  /\ PrimFloat.is_nan (safeMetricValue v) = false
  /\ safeMetricValue (JS.Num (safeMetricValue v)) = safeMetricValue v
  /\ getColor metric (safeMetricValue v) = getColor metric (JS.Number v).
Proof.
  assert (Hval : safeMetricValue v
                 = match v with
                   | JS.Num n => if PrimFloat.is_nan n then 0%float else n
                   | JS.Undefined => 0%float
                   end).
  { destruct v as [|n]; [reflexivity|].
    unfold safeMetricValue, JS.isNaN. simpl.
    destruct (PrimFloat.is_nan n); reflexivity. }
  assert (Hnan : PrimFloat.is_nan (safeMetricValue v) = false).
  { rewrite Hval. destruct v as [|n]; [reflexivity|].
    destruct (PrimFloat.is_nan n) eqn:E; [reflexivity | exact E]. }
  assert (Hidem : safeMetricValue (JS.Num (safeMetricValue v))
                  = safeMetricValue v)
    by now apply safeMetricValue_number.
  split; [exact Hval|]. split; [exact Hnan|]. split; [exact Hidem|].
  unfold getColor. rewrite Hidem.
  replace (safeMetricValue (JS.Num (JS.Number v))) with (safeMetricValue v);
    [reflexivity|].
  destruct v as [|n]; reflexivity.
Qed.

Lemma getColor_known (metric : SurveyMetric) (v : float) :
  In (getColor (metricKey metric) v) ["#22c55e"; "#eab308"; "#ef4444"].
Proof.
  unfold getColor. destruct metric; simpl;
    repeat match goal with |- context [if ?b then _ else _] => destruct b end;
    simpl; auto.
Qed.

(** X16. Every colour a marker can have is in the legend: for the selected
    metric, the fill colour of the marker of any item is one of the colours
    of [legendRanges], which are green, yellow and red in this order for
    each metric. *)
Theorem legend_has_marker_colour (st : ViewState) (metric : SurveyMetric)
    (item : MapItem) :
  metricKey metric = selectedMetric st ->
  In (markerColor metric item) (map snd (legendRanges st))
  /\ map snd (legendRanges st) = ["#22c55e"; "#eab308"; "#ef4444"].
Proof.
  intros Hm.
  assert (Hl : map snd (legendRanges st) = ["#22c55e"; "#eab308"; "#ef4444"]).
  { unfold legendRanges.
    destruct (selectedMetric st =? "nps"); [reflexivity|].
    destruct (selectedMetric st =? "csat"); reflexivity. }
  split; [|exact Hl]. rewrite Hl. apply getColor_known.
Qed.

Lemma legend_has_marker_colour_witness :
  In (markerColor MetricNps (inr silentRecord))
     (map snd (legendRanges (sampleView LCity None None)))
  /\ map snd (legendRanges (sampleView LCity None None))
     = ["#22c55e"; "#eab308"; "#ef4444"].
Proof.
  apply (legend_has_marker_colour (sampleView LCity None None) MetricNps
                                  (inr silentRecord)).
  reflexivity.
Defined.

Section TooltipFacts.
Variable formatSurveyTime : string -> string.

(** X17. An item whose selected metric is missing or NaN is drawn as if the
    metric were 0: its marker has the colour of 0, and its tooltip shows the
    metric twice, as "0" ("0.0" for CES) in the headline and as the
    placeholder in the line of that metric. *)
Theorem missing_metric_shown_as_zero (metric : SurveyMetric) (item : MapItem) :
  JS.isNumber (itemMetric metric item) = false
  \/ JS.isNaN_value (itemMetric metric item) = true ->
  markerColor metric item = getColor (metricKey metric) 0
  /\ In (METRIC_LABELS metric ++ ": "
         ++ match metric with MetricCes => "0.0" | _ => "0" end)
        (markerTooltipLines formatSurveyTime metric item)
  /\ In (METRIC_LABELS metric ++ ": —")
        (markerTooltipLines formatSurveyTime metric item).
Proof.
  intros Hmiss.
  assert (Hsafe : safeMetricValue (itemMetric metric item) = 0%float).
  { destruct (safeMetricValue_cases (itemMetric metric item))
      as [(H1 & H2 & _) | [_ H]]; [|exact H].
    destruct Hmiss; congruence. }
  assert (Hline : formatMetricValue (itemMetric metric item) (metricKey metric)
                  = "—").
  { unfold formatMetricValue.
    destruct Hmiss as [H | H]; rewrite H; [reflexivity|].
    now rewrite orb_true_r. }
  split; [unfold markerColor; now rewrite Hsafe|].
  unfold markerTooltipLines, tooltipLines. rewrite Hsafe.
  split; apply in_or_app; right; apply in_or_app; left.
  - left. destruct metric; reflexivity.
  - destruct metric; simpl in Hline; simpl; rewrite Hline; auto 6.
Qed.

End TooltipFacts.

Lemma missing_metric_shown_as_zero_witness :
  markerColor MetricCes (inr (scenarioRecord 80)) = getColor "ces" 0
  /\ In "CES: 0.0"
        (markerTooltipLines (fun d => d) MetricCes (inr (scenarioRecord 80)))
  /\ In "CES: —"
        (markerTooltipLines (fun d => d) MetricCes (inr (scenarioRecord 80))).
Proof.
  apply (missing_metric_shown_as_zero (fun d => d) MetricCes
                                      (inr (scenarioRecord 80))).
  left. reflexivity.
Defined.

(* ================================================================= *)
(** ** The choropleth *)

Lemma property_eqb_eq (a b : Geo.property) :
  Geo.property_eqb a b = true <-> a = b.
Proof.
  destruct a, b; simpl; rewrite ?String.eqb_eq;
    split; intros H; try discriminate; congruence.
Qed.

Lemma property_eqb_refl (a : Geo.property) : Geo.property_eqb a a = true.
Proof. now apply property_eqb_eq. Qed.

Lemma geoGet_geoSet m k v k' :
  geoGet (geoSet m k v) k'
  = if Geo.property_eqb k k' then Some v else geoGet m k'.
Proof.
  induction m as [|[k0 v0] rest IH]; simpl; [reflexivity|].
  destruct (Geo.property_eqb k0 k) eqn:E; simpl.
  - apply property_eqb_eq in E. subst k0.
    destruct (Geo.property_eqb k k'); reflexivity.
  - rewrite IH. destruct (Geo.property_eqb k k') eqn:E'; [|reflexivity].
    apply property_eqb_eq in E'. subst k'. now rewrite E.
Qed.

Lemma geoGet_fold (metric : SurveyMetric) (k : Geo.property) l : forall m,
  geoGet
    (fold_left
       (fun m agg =>
          geoSet m (Geo.geoNameForCountry (agg_name agg)) (geoInfo metric agg))
       l m) k
  = match lastWith
            (fun agg => Geo.property_eqb (Geo.geoNameForCountry (agg_name agg)) k)
            l with
    | Some agg => Some (geoInfo metric agg)
    | None => geoGet m k
    end.
Proof.
  induction l as [|a rest IH]; intros m; simpl; [reflexivity|].
  rewrite IH, geoGet_geoSet.
  destruct (lastWith _ rest); [reflexivity|].
  destruct (Geo.property_eqb (Geo.geoNameForCountry (agg_name a)) k);
    reflexivity.
Qed.

Lemma lastWith_unique {A : Type} (p : A -> bool) (l : list A) (a : A) :
  In a l -> p a = true ->
  (forall b, In b l -> p b = true -> b = a) ->
  lastWith p l = Some a.
Proof.
  induction l as [|x rest IH]; simpl; [tauto|].
  intros Hin Hp Huniq.
  destruct (lastWith p rest) as [y|] eqn:E.
  - assert (Hy : In y rest /\ p y = true).
    { clear - E. revert y E. induction rest as [|z rest IH]; simpl;
        [discriminate|].
      intros y. destruct (lastWith p rest) as [w|] eqn:Ew.
      - intros [= <-]. destruct (IH w eq_refl). tauto.
      - destruct (p z) eqn:Ez; [|discriminate]. intros [= <-]. tauto. }
    f_equal. apply Huniq; tauto.
  - destruct Hin as [-> | Hin].
    + now rewrite Hp.
    + assert (H : @None A = Some a).
      { apply IH; [assumption | assumption |].
        intros b Hb. apply Huniq. now right. }
      discriminate H.
Qed.

(** X18. The fill of a country on the choropleth: a feature without a name,
    or with a name on which no aggregate is drawn, gets the neutral fill
    [#e5e7eb]; otherwise it gets the colour of the metric of the last
    aggregate of the list that is drawn on it, an aggregate being drawn on
    the feature whose name is the geography name of the aggregate's name.  In
    particular an aggregate that is alone on its feature gives it its own
    colour. *)
Theorem featureFill_last_drawn (metric : SurveyMetric)
    (aggs : list SurveyAggregate) (name : option string) :
  (unselected name -> featureFill metric aggs name = "#e5e7eb")
  /\ (forall n,
      selected name n ->
      featureFill metric aggs name
      = match lastWith (drawnOn n) aggs with
        | Some agg => getColor (metricKey metric) (aggMetric metric agg)
        | None => "#e5e7eb"
        end)
  /\ (forall n agg,
      selected name n -> In agg aggs -> drawnOn n agg = true ->
      (forall agg', In agg' aggs -> drawnOn n agg' = true -> agg' = agg) ->
      featureFill metric aggs name
      = getColor (metricKey metric) (aggMetric metric agg)).
Proof.
  assert (Hsel : forall n,
             selected name n ->
             featureFill metric aggs name
             = match lastWith (drawnOn n) aggs with
               | Some agg => getColor (metricKey metric) (aggMetric metric agg)
               | None => "#e5e7eb"
               end).
  { intros n Hn. unfold featureFill, featureInfo, byGeoName.
    rewrite (nonEmpty_selected _ _ Hn), geoGet_fold. simpl.
    change (fun agg : SurveyAggregate =>
              Geo.property_eqb (Geo.geoNameForCountry (agg_name agg)) (Geo.Own n))
      with (drawnOn n).
    destruct (lastWith (drawnOn n) aggs); reflexivity. }
  split; [|split].
  - intros H. unfold featureFill, featureInfo.
    now rewrite (nonEmpty_unselected _ H).
  - exact Hsel.
  - intros n agg Hn Hin Hd Huniq.
    now rewrite (Hsel n Hn), (lastWith_unique _ _ agg Hin Hd Huniq).
Qed.

Lemma featureFill_last_drawn_witness :
  featureFill MetricNps
    (aggregateByCountry sampleData) (Some "United States of America")
  = getColor "nps"
      (aggMetric MetricNps
         (countryAggregate ("USA", addSums (firstSums (scenarioRecord 80))
                                           (scenarioRecord 40)))).
Proof.
  apply (proj2 (proj2 (featureFill_last_drawn MetricNps
                         (aggregateByCountry sampleData)
                         (Some "United States of America")))
               "United States of America"
               (countryAggregate ("USA", addSums (firstSums (scenarioRecord 80))
                                                 (scenarioRecord 40)))).
  - split; [reflexivity | discriminate].
  - left. reflexivity.
  - reflexivity.
  - intros agg' [<- | [<- | []]] H; [reflexivity | vm_compute in H; discriminate].
Defined.

Lemma own_In (o : list (string * string)) (k v : string) :
  Geo.own o k = Some v -> In (k, v) o.
Proof.
  induction o as [|[k' v'] rest IH]; simpl; [discriminate|].
  destruct (k' =? k) eqn:E.
  - apply String.eqb_eq in E. intros [= ->]. subst. now left.
  - intros H. right. now apply IH.
Qed.

(** X19. The name lookup is stable: whatever string it returns is returned
    for that string again, so translating a name twice is translating it
    once. *)
Theorem geoNameForCountry_idempotent (s g : string) :
  Geo.geoNameForCountry s = Geo.Own g ->
  Geo.geoNameForCountry g = Geo.Own g.
Proof.
  unfold Geo.geoNameForCountry at 1. unfold Geo.get.
  destruct (Geo.own Geo.COUNTRY_NAME_TO_GEO s) as [v|] eqn:Eo.
  - intros [= <-]. apply own_In in Eo. unfold Geo.COUNTRY_NAME_TO_GEO in Eo.
    simpl in Eo.
    repeat (destruct Eo as [Eo | Eo]; [injection Eo as <- <-; reflexivity|]).
    contradiction.
  - destruct (existsb (String.eqb s) Geo.Object_prototype) eqn:Ep;
      intros [= <-].
    unfold Geo.geoNameForCountry, Geo.get. now rewrite Eo, Ep.
Qed.

Lemma geoNameForCountry_idempotent_witness :
  Geo.geoNameForCountry "United States of America"
  = Geo.Own "United States of America".
Proof.
  apply (geoNameForCountry_idempotent "USA" "United States of America").
  reflexivity.
Defined.

(* ================================================================= *)
(** ** The earlier revision against the present one *)

(** X20. The two revisions of [getColor] agree on every number; on NaN the
    earlier one, which compares the value as it comes, gives the bad colour
    for each of the three metrics, where the present one gives the colour
    of 0. *)
Theorem legacy_getColor_agrees (metric : string) (value : float) :
  PrimFloat.is_nan value = false ->
  Legacy.getColor metric value = getColor metric value
  /\ (knownMetric metric = true -> Legacy.getColor metric nan = "#ef4444").
Proof.
  intros Hnan. split.
  - unfold Legacy.getColor, getColor.
    now rewrite (safeMetricValue_number _ Hnan).
  - unfold knownMetric, Legacy.getColor.
    destruct (metric =? "nps"); [reflexivity|].
    destruct (metric =? "csat"); [reflexivity|].
    destruct (metric =? "ces"); [reflexivity | discriminate].
Qed.

Lemma legacy_getColor_agrees_witness :
  Legacy.getColor "ces" 3 = getColor "ces" 3
  /\ (knownMetric "ces" = true -> Legacy.getColor "ces" nan = "#ef4444").
Proof. apply (legacy_getColor_agrees "ces" 3). reflexivity. Defined.

Lemma legacy_accumulate_agrees (key : SurveyCity -> string) m c :
  numericMetrics c -> Legacy.accumulate key m c = accumulate key m c.
Proof.
  intros (n & s & e & Hn & Hs & He & Nn & Ns & Ne).
  assert (H1 : Legacy.firstSums c = firstSums c).
  { unfold Legacy.firstSums, firstSums, npsValue, csatValue, cesValue, orDefault.
    rewrite Hn, Hs, He. simpl. unfold JS.isNaN. now rewrite Nn, Ns, Ne. }
  assert (H2 : forall a, Legacy.addSums a c = addSums a c).
  { intros a.
    unfold Legacy.addSums, addSums, npsValue, csatValue, cesValue, orDefault.
    rewrite Hn, Hs, He. simpl. unfold JS.isNaN. now rewrite Nn, Ns, Ne. }
  unfold Legacy.accumulate, accumulate. rewrite H1.
  destruct (JSMap.get m (key c)); [now rewrite H2 | reflexivity].
Qed.

Lemma legacy_fold_agrees (key : SurveyCity -> string) l : forall m,
  (forall r, In r l -> numericMetrics r) ->
  fold_left (Legacy.accumulate key) l m = fold_left (accumulate key) l m.
Proof.
  induction l as [|c rest IH]; intros m H; simpl; [reflexivity|].
  rewrite legacy_accumulate_agrees by (apply H; now left).
  apply IH. intros r Hr. apply H. now right.
Qed.

(** X21. The two revisions of the aggregation agree on complete data: when
    every record carries its NPS, CSAT and CES as numbers other than NaN,
    the earlier [aggregateByCountry] and [aggregateByState] return what the
    present ones return. *)
Theorem legacy_aggregation_agrees (cities : list SurveyCity) :
  (forall r, In r cities -> numericMetrics r) ->
  Legacy.aggregateByCountry cities = aggregateByCountry cities
  /\ forall country',
       Legacy.aggregateByState cities country'
       = aggregateByState cities country'.
Proof.
  intros H. split.
  - unfold Legacy.aggregateByCountry, aggregateByCountry.
    now rewrite legacy_fold_agrees.
  - intros country'. unfold Legacy.aggregateByState, aggregateByState.
    rewrite legacy_fold_agrees; [reflexivity|].
    intros r Hr. apply filter_In in Hr. now apply H.
Qed.

Lemma legacy_aggregation_agrees_witness :
  Legacy.aggregateByCountry datedSample = aggregateByCountry datedSample
  /\ forall country',
       Legacy.aggregateByState datedSample country'
       = aggregateByState datedSample country'.
Proof.
  apply (legacy_aggregation_agrees datedSample).
  intros r [<- | [<- | []]];
    exists 55%float, 70%float, 4%float; repeat split.
Defined.

(* ================================================================= *)
(** ** Every record is counted once *)

Lemma in_group (key : SurveyCity -> string) k cities r :
  In r (group key k cities) <-> In r cities /\ key r = k.
Proof. unfold group. now rewrite filter_In, String.eqb_eq. Qed.

Lemma country_aggregate_by_name cities agg agg' :
  In agg (aggregateByCountry cities) -> In agg' (aggregateByCountry cities) ->
  agg_name agg' = agg_name agg -> agg' = agg.
Proof.
  intros H H' Hn.
  destruct (aggregateByCountry_inv _ _ H) as [a [Ha ->]].
  destruct (aggregateByCountry_inv _ _ H') as [a' [Ha' ->]].
  simpl in *. rewrite Hn in *. congruence.
Qed.

Lemma state_aggregate_by_name cities country' agg agg' :
  In agg (aggregateByState cities country') ->
  In agg' (aggregateByState cities country') ->
  agg_name agg' = agg_name agg -> agg' = agg.
Proof.
  intros H H' Hn.
  destruct (aggregateByState_inv _ _ _ H) as [a [Ha ->]].
  destruct (aggregateByState_inv _ _ _ H') as [a' [Ha' ->]].
  simpl in *. rewrite Hn in *. congruence.
Qed.

(** X22. The aggregation loses no record and counts none twice: every record
    of the input is in the group of exactly one country aggregate, and every
    record of a country is in the group of exactly one of that country's
    state aggregates. *)
Theorem every_record_in_one_group (cities : list SurveyCity) (r : SurveyCity) :
  In r cities ->
  (exists agg,
      In agg (aggregateByCountry cities)
      /\ In r (group countryKey (agg_name agg) cities)
      /\ forall agg',
           In agg' (aggregateByCountry cities) ->
           In r (group countryKey (agg_name agg') cities) -> agg' = agg)
  /\ (exists agg,
      In agg (aggregateByState cities (country r))
      /\ In r (group stateKey (agg_name agg)
                     (filter (inCountry (country r)) cities))
      /\ forall agg',
           In agg' (aggregateByState cities (country r)) ->
           In r (group stateKey (agg_name agg')
                       (filter (inCountry (country r)) cities)) ->
           agg' = agg).
Proof.
  intros Hr. split.
  - destruct (proj2 (name_of_country_aggregate cities (country r)))
      as [agg [Hagg Hname]]; [now exists r|].
    exists agg. split; [assumption|]. split.
    + apply in_group. now split.
    + intros agg' Hagg' Hin. apply in_group in Hin. destruct Hin as [_ Hk].
      apply (country_aggregate_by_name cities); try assumption.
      unfold countryKey in Hk. congruence.
  - destruct (proj2 (name_of_state_aggregate cities (country r) (stateKey r)))
      as [agg [Hagg Hname]]; [now exists r|].
    assert (Hf : In r (filter (inCountry (country r)) cities)).
    { apply filter_In. split; [assumption|]. apply String.eqb_refl. }
    exists agg. split; [assumption|]. split.
    + apply in_group. now split.
    + intros agg' Hagg' Hin. apply in_group in Hin. destruct Hin as [_ Hk].
      apply (state_aggregate_by_name cities (country r)); try assumption.
      congruence.
Qed.

Lemma every_record_in_one_group_witness :
  (exists agg,
      In agg (aggregateByCountry sampleData)
      /\ In silentRecord (group countryKey (agg_name agg) sampleData)
      /\ forall agg',
           In agg' (aggregateByCountry sampleData) ->
           In silentRecord (group countryKey (agg_name agg') sampleData) ->
           agg' = agg)
  /\ (exists agg,
      In agg (aggregateByState sampleData (country silentRecord))
      /\ In silentRecord
            (group stateKey (agg_name agg)
                   (filter (inCountry (country silentRecord)) sampleData))
      /\ forall agg',
           In agg' (aggregateByState sampleData (country silentRecord)) ->
           In silentRecord
              (group stateKey (agg_name agg')
                     (filter (inCountry (country silentRecord)) sampleData)) ->
           agg' = agg).
Proof.
  apply (every_record_in_one_group sampleData silentRecord).
  right. right. left. reflexivity.
Defined.

(* ================================================================= *)
(** ** The lines of a tooltip *)

Lemma itemLabel_record (c : SurveyCity) : JS.truthy (itemLabel (inr c)) = true.
Proof.
  apply truthy_nonempty. simpl.
  destruct (city c); simpl; discriminate.
Qed.

Section TooltipLines.
Variable formatSurveyTime : string -> string.

(** X23. The tooltip of the marker of a raw record is, joined by line
    breaks and in this order: the label "city, state, country" (the state
    left out when empty), which is never dropped; the selected metric under
    its label, formatted from the coerced value; the response count; the
    record's NPS, CSAT and CES, each formatted from the record's own field;
    and last a survey line, there exactly when the record has a non-empty
    survey date.  The tooltip of an aggregate is the same with the
    aggregate's name as label, left out when the name is empty. *)
Theorem tooltip_lines_in_order (metric : SurveyMetric) (item : MapItem) :
  markerTooltip formatSurveyTime metric item
  = String.concat "<br>" (markerTooltipLines formatSurveyTime metric item)
  /\ markerTooltipLines formatSurveyTime metric item
     = List.app
         match item with
         | inr c =>
             [city c ++ ", "
              ++ (if state c =? "" then "" else state c ++ ", ") ++ country c]
         | inl a => if agg_name a =? "" then [] else [agg_name a]
         end
         (List.app
            [ METRIC_LABELS metric ++ ": "
              ++ formatMetricValue
                   (JS.Num (match itemMetric metric item with
                            | JS.Num n =>
                                if PrimFloat.is_nan n then 0%float else n
                            | JS.Undefined => 0%float
                            end))
                   (metricKey metric);
              "Response Count: " ++ JS.toString (itemResponseCount item);
              "NPS: " ++ formatMetricValue (itemMetric MetricNps item) "nps";
              "CSAT: " ++ formatMetricValue (itemMetric MetricCsat item) "csat";
              "CES: " ++ formatMetricValue (itemMetric MetricCes item) "ces" ]
            match itemSurveyDate item with
            | Some d =>
                if d =? "" then [] else ["Survey: " ++ formatSurveyTime d]
            | None => []
            end).
Proof.
  split; [reflexivity|].
  unfold markerTooltipLines, tooltipLines.
  assert (Hsafe : safeMetricValue (itemMetric metric item)
                  = match itemMetric metric item with
                    | JS.Num n => if PrimFloat.is_nan n then 0%float else n
                    | JS.Undefined => 0%float
                    end).
  { destruct (itemMetric metric item) as [|n]; [reflexivity|].
    unfold safeMetricValue, JS.isNaN. simpl.
    destruct (PrimFloat.is_nan n); reflexivity. }
  rewrite Hsafe. f_equal; [|f_equal].
  - destruct item as [a | c].
    + simpl. unfold JS.truthy. destruct (agg_name a =? ""); reflexivity.
    + rewrite itemLabel_record. simpl. unfold JS.truthy.
      destruct (state c =? ""); reflexivity.
  - destruct (itemSurveyDate item) as [d|]; simpl; [|reflexivity].
    unfold JS.truthy. destruct (d =? ""); reflexivity.
Qed.

End TooltipLines.

(** The tooltip of a dated record without CSAT, under the metric CSAT. *)
Lemma tooltip_example :
  markerTooltip (fun d => d) MetricCsat
    (inr {| city := "Austin"; state := ""; country := "USA";
            latitude := 30.25; longitude := -97.75;
            nps := JS.Num 54.5; csat := JS.Undefined; ces := JS.Num 2.25;
            responseCount := 12; surveyDate := Some "2024-06-15T10:30:00Z" |})
  = "Austin, USA<br>CSAT: 0<br>Response Count: 12<br>NPS: 55<br>CSAT: —<br>CES: 2.3<br>Survey: 2024-06-15T10:30:00Z".
Proof. vm_compute. reflexivity. Qed.
